(** * React-Todo-App: the to-do reducer and its persisted store

    A shallow embedding of [todoReducer], of [handleSubmit], [deleteTodo]
    and [updateTodo], of the first state of [App] and of the handlers of
    [TodoItem], together with the
    pieces of the browser platform they call: [localStorage],
    [JSON.stringify] and [JSON.parse], [new Date()],
    [Date.prototype.toISOString], [String.prototype.trim],
    [Array.prototype.findIndex] and [uuidv4].

    Conventions.
    - A JavaScript string is a [string]: a sequence of code units, here
      restricted to the range 0-255.
    - The type [Todo] declares its two dates as [Date]; at run time a date
      is a [Date] object when [new Date()] made it and a string when it was
      read back from storage ([JsDate]).
    - The program is effectful (storage, clock, id generator).  The effects
      are threaded through a small state-and-error monad [M] over a [World];
      [None] in [M] is an exception escaping to the caller.
    - The reducer reads the store into a fresh array on every call, so the
      assignments an UPDATE makes to a record of that array do not reach the
      in-memory list it was given. *)

From Stdlib Require Import ZArith Lia Ascii.
From stdpp Require Import base option list strings gmap.

Local Open Scope Z_scope.

(** ** Characters *)

Module Char.

Definition code (c : ascii) : Z := Z.of_N (N_of_ascii c).
Definition of_code (z : Z) : ascii := ascii_of_N (Z.to_N z).

Definition dquote : ascii := "034"%char.
Definition backslash : ascii := "092"%char.

Definition eqb (a b : ascii) : bool := Ascii.eqb a b.

(** One hexadecimal digit, lower case, as [JSON.stringify] prints it. *)
Definition hex_digit (z : Z) : ascii :=
  if z <? 10 then of_code (48 + z) else of_code (87 + z).

(** The value of a hexadecimal digit, either case, as [JSON.parse]
    reads it. *)
Definition hex_value (c : ascii) : option Z :=
  let n := code c in
  if (48 <=? n) && (n <=? 57) then Some (n - 48)
  else if (97 <=? n) && (n <=? 102) then Some (n - 87)
  else if (65 <=? n) && (n <=? 70) then Some (n - 55)
  else None.

Definition is_digit (c : ascii) : bool :=
  (48 <=? code c) && (code c <=? 57).

(** WhiteSpace and LineTerminator code points below 256: TAB, LF, VT, FF,
    CR, SP and NBSP. *)
Definition is_space (c : ascii) : bool :=
  let n := code c in
  ((9 <=? n) && (n <=? 13)) || (n =? 32) || (n =? 160).

End Char.

(** ** JSON string literals *)

Module JSONString.

(** QuoteJSONString, one code unit at a time. *)
Definition escape_char (c : ascii) : string :=
  let n := Char.code c in
  if n =? 8 then "\b"
  else if n =? 9 then "\t"
  else if n =? 10 then "\n"
  else if n =? 12 then "\f"
  else if n =? 13 then "\r"
  else if n =? 34 then String Char.backslash (String Char.dquote EmptyString)
  else if n =? 92 then "\\"
  else if n <? 32 then
    "\u00" +:+ String (Char.hex_digit (n / 16))
                (String (Char.hex_digit (n mod 16)) EmptyString)
  else String c EmptyString.

Fixpoint escape (s : string) : string :=
  match s with
  | EmptyString => EmptyString
  | String c s' => escape_char c +:+ escape s'
  end.

Definition quote (s : string) : string :=
  String Char.dquote (escape s +:+ String Char.dquote EmptyString).

(** The character denoted by a one-letter escape. *)
Definition unescape (e : ascii) : option ascii :=
  let n := Char.code e in
  if n =? 34 then Some Char.dquote
  else if n =? 92 then Some Char.backslash
  else if n =? 47 then Some "/"%char
  else if n =? 98 then Some (Char.of_code 8)
  else if n =? 102 then Some (Char.of_code 12)
  else if n =? 110 then Some (Char.of_code 10)
  else if n =? 114 then Some (Char.of_code 13)
  else if n =? 116 then Some (Char.of_code 9)
  else None.

(** The code unit denoted by the four digits of a [\u] escape; code units
    above 255 are outside the modelled strings. *)
Definition hex4 (h1 h2 h3 h4 : ascii) : option ascii :=
  match Char.hex_value h1, Char.hex_value h2,
        Char.hex_value h3, Char.hex_value h4 with
  | Some a, Some b, Some c, Some d =>
      let n := ((a * 16 + b) * 16 + c) * 16 + d in
      if n <? 256 then Some (Char.of_code n) else None
  | _, _, _, _ => None
  end.

Definition cons_fst (c : ascii) (r : option (string * string))
  : option (string * string) :=
  match r with
  | Some (s, rest) => Some (String c s, rest)
  | None => None
  end.

(** Reads the characters of a string literal after its opening quote, up
    to and including the closing quote; returns the string denoted and
    the rest of the input. *)
Fixpoint read_chars (s : string) : option (string * string) :=
  match s with
  | EmptyString => None
  | String c rest =>
      if Char.eqb c Char.dquote then Some (EmptyString, rest)
      else if Char.eqb c Char.backslash then
        match rest with
        | EmptyString => None
        | String e rest' =>
            if Char.eqb e "u"%char then
              match rest' with
              | String h1 (String h2 (String h3 (String h4 r))) =>
                  match hex4 h1 h2 h3 h4 with
                  | Some a => cons_fst a (read_chars r)
                  | None => None
                  end
              | _ => None
              end
            else
              match unescape e with
              | Some a => cons_fst a (read_chars rest')
              | None => None
              end
        end
      else if Char.code c <? 32 then None
      else cons_fst c (read_chars rest)
  end.

(** A string literal at the head of the input. *)
Definition read (s : string) : option (string * string) :=
  match s with
  | String c rest => if Char.eqb c Char.dquote then read_chars rest else None
  | EmptyString => None
  end.

End JSONString.

(** ** Dates *)

Module DateTime.

Definition msPerDay : Z := 86400000.

(** The largest time value a [Date] can hold (TimeClip). *)
Definition maxTime : Z := 8640000000000000.

(** Days since 1970-01-01 to proleptic Gregorian (year, month, day). *)
Definition civil_from_days (days : Z) : Z * Z * Z :=
  let z := days + 719468 in
  let era := z / 146097 in
  let doe := z - era * 146097 in
  let yoe := (doe - doe / 1460 + doe / 36524 - doe / 146096) / 365 in
  let doy := doe - (365 * yoe + yoe / 4 - yoe / 100) in
  let mp := (5 * doy + 2) / 153 in
  let d := doy - (153 * mp + 2) / 5 + 1 in
  let m := if mp <? 10 then mp + 3 else mp - 9 in
  let y := yoe + era * 400 in
  (if m <=? 2 then y + 1 else y, m, d).

Definition days_from_civil (y m d : Z) : Z :=
  let y' := if m <=? 2 then y - 1 else y in
  let era := y' / 400 in
  let yoe := y' - era * 400 in
  let doy := (153 * (if 2 <? m then m - 3 else m + 9) + 2) / 5 + d - 1 in
  let doe := yoe * 365 + yoe / 4 - yoe / 100 + doy in
  era * 146097 + doe - 719468.

Definition is_leap (y : Z) : bool :=
  (y mod 4 =? 0) && (negb (y mod 100 =? 0) || (y mod 400 =? 0)).

Definition days_in_month (y m : Z) : Z :=
  if m =? 2 then (if is_leap y then 29 else 28)
  else if (m =? 4) || (m =? 6) || (m =? 9) || (m =? 11) then 30
  else 31.

(** [n] written with exactly [width] decimal digits, in front of [acc]. *)
Fixpoint digits (width : nat) (n : Z) (acc : string) : string :=
  match width with
  | O => acc
  | S w => digits w (n / 10) (String (Char.of_code (48 + n mod 10)) acc)
  end.

Definition year_string (y : Z) (acc : string) : string :=
  if (0 <=? y) && (y <=? 9999) then digits 4 y acc
  else if y <? 0 then String "-"%char (digits 6 (- y) acc)
  else String "+"%char (digits 6 y acc).

(** [Date.prototype.toISOString] of the time value [t] (milliseconds
    since the epoch, UTC): [YYYY-MM-DDTHH:mm:ss.sssZ]. *)
Definition toISOString (t : Z) : string :=
  let '(y, m, d) := civil_from_days (t / msPerDay) in
  let ms := t mod msPerDay in
  let time :=
    digits 2 (ms / 3600000) (String ":"%char
      (digits 2 (ms / 60000 mod 60) (String ":"%char
        (digits 2 (ms / 1000 mod 60) (String "."%char
          (digits 3 (ms mod 1000) "Z")))))) in
  year_string y (String "-"%char
    (digits 2 m (String "-"%char
      (digits 2 d (String "T"%char time))))).

(** Exactly [width] decimal digits at the head of the input. *)
Fixpoint read_digits (width : nat) (acc : Z) (s : string)
  : option (Z * string) :=
  match width with
  | O => Some (acc, s)
  | S w =>
      match s with
      | String c rest =>
          if Char.is_digit c
          then read_digits w (acc * 10 + (Char.code c - 48)) rest
          else None
      | EmptyString => None
      end
  end.

Definition expect (c : ascii) (s : string) : option string :=
  match s with
  | String c' rest => if Char.eqb c c' then Some rest else None
  | EmptyString => None
  end.

Definition read_year (s : string) : option (Z * string) :=
  match s with
  | String c rest =>
      if Char.eqb c "+"%char then read_digits 6 0 rest
      else if Char.eqb c "-"%char then
        match read_digits 6 0 rest with
        | Some (y, r) => if y =? 0 then None else Some (- y, r)
        | None => None
        end
      else read_digits 4 0 s
  | EmptyString => None
  end.

(** [Date.parse] on the complete date-time form that [toISOString]
    writes; [None] is an invalid date (NaN), which is also the answer given
    here for the shorter and the implementation-defined forms. *)
Definition parse (s : string) : option Z :=
  '(y, s) ← read_year s;
  s ← expect "-"%char s;
  '(m, s) ← read_digits 2 0 s;
  s ← expect "-"%char s;
  '(d, s) ← read_digits 2 0 s;
  s ← expect "T"%char s;
  '(hh, s) ← read_digits 2 0 s;
  s ← expect ":"%char s;
  '(mm, s) ← read_digits 2 0 s;
  s ← expect ":"%char s;
  '(ss, s) ← read_digits 2 0 s;
  s ← expect "."%char s;
  '(ms, s) ← read_digits 3 0 s;
  match s with
  | "Z" =>
      if (1 <=? m) && (m <=? 12) && (1 <=? d) && (d <=? days_in_month y m)
         && (hh <? 24) && (mm <? 60) && (ss <? 60)
      then
        let t := days_from_civil y m d * msPerDay
                 + hh * 3600000 + mm * 60000 + ss * 1000 + ms in
        if (- maxTime <=? t) && (t <=? maxTime) then Some t else None
      else None
  | _ => None
  end.

End DateTime.

(** The value of a date field at run time.  [new Date()] makes a [Date]
    object; [JSON.stringify] writes a [Date] as the string its [toJSON]
    returns, and [JSON.parse] has no reviver here, so a field read back from
    storage holds that string. *)
Inductive JsDate : Type :=
| DateObj (t : Z)
| DateStr (s : string).

Module JsDate.

(** What [JSON.stringify] writes for the field, before quoting. *)
Definition toJSON (d : JsDate) : string :=
  match d with
  | DateObj t => DateTime.toISOString t
  | DateStr s => s
  end.

(** The instant the value denotes ([getTime] of a [Date], [Date.parse] of
    a string). *)
Definition time (d : JsDate) : option Z :=
  match d with
  | DateObj t => Some t
  | DateStr s => DateTime.parse s
  end.

(** [a] denotes an instant strictly after the one [b] denotes. *)
Definition later (a b : JsDate) : Prop :=
  match time a, time b with
  | Some ta, Some tb => tb < ta
  | _, _ => False
  end.

End JsDate.

(** ** The data model *)

(** [type Todo = { id; content; isDone; dateCreated; lastModified }] *)
Module Todo.

Record t : Type := mk {
  id : string;
  content : string;
  isDone : bool;
  dateCreated : JsDate;
  lastModified : JsDate
}.

Definition set_content (c : string) (todo : t) : t :=
  mk (id todo) c (isDone todo) (dateCreated todo) (lastModified todo).

Definition set_isDone (b : bool) (todo : t) : t :=
  mk (id todo) (content todo) b (dateCreated todo) (lastModified todo).

Definition set_lastModified (d : JsDate) (todo : t) : t :=
  mk (id todo) (content todo) (isDone todo) (dateCreated todo) d.

End Todo.

Abbreviation Todo := Todo.t.

(** [Partial<Todo>]: every field optional ([None] is [undefined]). *)
Module Partial.

Record t : Type := mk {
  id : option string;
  content : option string;
  isDone : option bool;
  dateCreated : option JsDate;
  lastModified : option JsDate
}.

(** The object literal [{}]. *)
Definition empty : t := mk None None None None None.

End Partial.

(** [enum TodoAction { CREATE, UPDATE, DELETE }]: a numeric enum, so a tag
    at run time is a number and the reducer's [switch] has a [default]. *)
Module TodoAction.

Definition t : Type := Z.
Definition CREATE : t := 0.
Definition UPDATE : t := 1.
Definition DELETE : t := 2.

End TodoAction.

(** The reducer's second argument, [{ data?: Partial<Todo>; type: TodoAction }]. *)
Module Action.

Record t : Type := mk {
  data : option Partial.t;
  type : TodoAction.t
}.

(** [action.data ?? {}] *)
Definition payload (action : t) : Partial.t :=
  default Partial.empty (data action).

End Action.

Abbreviation Action := Action.t.

(** ** The persisted text: [JSON.stringify] and [JSON.parse] *)

Module JSON.

Definition stringify_bool (b : bool) : string :=
  if b then "true" else "false".

Definition key (name : string) : string :=
  JSONString.quote name +:+ ":".

(** An object is written with its own properties in creation order, which
    for every [Todo] of this program is the order of the type's fields. *)
Definition stringify_todo (todo : Todo) : string :=
  "{" +:+ key "id" +:+ JSONString.quote (Todo.id todo)
  +:+ "," +:+ key "content" +:+ JSONString.quote (Todo.content todo)
  +:+ "," +:+ key "isDone" +:+ stringify_bool (Todo.isDone todo)
  +:+ "," +:+ key "dateCreated"
      +:+ JSONString.quote (JsDate.toJSON (Todo.dateCreated todo))
  +:+ "," +:+ key "lastModified"
      +:+ JSONString.quote (JsDate.toJSON (Todo.lastModified todo))
  +:+ "}".

Fixpoint stringify_elements (todos : list Todo) : string :=
  match todos with
  | [] => ""
  | [todo] => stringify_todo todo
  | todo :: rest => stringify_todo todo +:+ "," +:+ stringify_elements rest
  end.

(** [JSON.stringify(todos)] for an array of [Todo]. *)
Definition stringify (todos : list Todo) : string :=
  "[" +:+ stringify_elements todos +:+ "]".

(** Strips the literal [p] from the head of the input. *)
Fixpoint expect (p s : string) : option string :=
  match p with
  | EmptyString => Some s
  | String c p' =>
      match s with
      | String c' s' => if Char.eqb c c' then expect p' s' else None
      | EmptyString => None
      end
  end.

(** A property name followed by a colon. *)
Definition read_key (name s : string) : option string :=
  '(k, s) ← JSONString.read s;
  if String.eqb k name then expect ":" s else None.

Definition read_bool (s : string) : option (bool * string) :=
  match expect "true" s with
  | Some rest => Some (true, rest)
  | None =>
      match expect "false" s with
      | Some rest => Some (false, rest)
      | None => None
      end
  end.

(** One object with the five properties of a [Todo]. *)
Definition read_todo (s : string) : option (Todo * string) :=
  s ← expect "{" s;
  s ← read_key "id" s;
  '(id, s) ← JSONString.read s;
  s ← expect "," s;
  s ← read_key "content" s;
  '(content, s) ← JSONString.read s;
  s ← expect "," s;
  s ← read_key "isDone" s;
  '(isDone, s) ← read_bool s;
  s ← expect "," s;
  s ← read_key "dateCreated" s;
  '(dateCreated, s) ← JSONString.read s;
  s ← expect "," s;
  s ← read_key "lastModified" s;
  '(lastModified, s) ← JSONString.read s;
  s ← expect "}" s;
  Some (Todo.mk id content isDone (DateStr dateCreated) (DateStr lastModified),
        s).

(** The elements of a non-empty array and its closing bracket.  Every
    element consumes input, so the length of the text is fuel enough. *)
Fixpoint read_elements (fuel : nat) (s : string) : option (list Todo * string) :=
  match fuel with
  | O => None
  | S fuel' =>
      '(todo, s) ← read_todo s;
      match s with
      | String c rest =>
          if Char.eqb c ","%char then
            '(todos, s) ← read_elements fuel' rest;
            Some (todo :: todos, s)
          else if Char.eqb c "]"%char then Some ([todo], rest)
          else None
      | EmptyString => None
      end
  end.

(** [JSON.parse(text)] typed as [Todo[]], on the texts that [stringify]
    writes: an array of objects with exactly the five properties, in
    order, without insignificant white space.  [None] covers both a
    [SyntaxError] and a text that is not such a list, on which the reducer's
    behaviour is not modelled. *)
Definition parse (text : string) : option (list Todo) :=
  match expect "[" text with
  | Some rest =>
      match expect "]" rest with
      | Some "" => Some []
      | Some _ => None
      | None =>
          match read_elements (String.length text) rest with
          | Some (todos, "") => Some todos
          | _ => None
          end
      end
  | None => None
  end.

(** What a record looks like after a trip through storage: every date is
    the string its [toJSON] gave. *)
Definition stored_todo (todo : Todo) : Todo :=
  Todo.mk (Todo.id todo) (Todo.content todo) (Todo.isDone todo)
    (DateStr (JsDate.toJSON (Todo.dateCreated todo)))
    (DateStr (JsDate.toJSON (Todo.lastModified todo))).

Definition stored (todos : list Todo) : list Todo := stored_todo <$> todos.

End JSON.

(** ** The platform: storage, clock and id generator *)

(** [localStorage] is a map from keys to texts.  The clock and the id
    generator are the sequences of answers that successive calls of
    [new Date()] and [uuidv4()] get, with a count of the calls made. *)
Record World : Type := mkWorld {
  localStorage : gmap string string;
  clock : nat → Z;
  ticks : nat;
  uuids : nat → string;
  drawn : nat
}.

Definition M (A : Type) : Type := World → option (A * World).

#[global] Instance M_ret : MRet M := λ A (a : A) w, Some (a, w).

#[global] Instance M_bind : MBind M := λ A B (f : A → M B) (m : M A) w,
  match m w with
  | Some (a, w') => f a w'
  | None => None
  end.

(** An exception. *)
Definition throw {A : Type} : M A := λ _, None.

Definition lift {A : Type} (o : option A) : M A :=
  match o with
  | Some a => mret a
  | None => throw
  end.

(** The three ways the program changes the world. *)
Definition write (key value : string) (w : World) : World :=
  mkWorld (<[key := value]> (localStorage w))
          (clock w) (ticks w) (uuids w) (drawn w).

Definition tick (w : World) : World :=
  mkWorld (localStorage w) (clock w) (S (ticks w)) (uuids w) (drawn w).

Definition draw (w : World) : World :=
  mkWorld (localStorage w) (clock w) (ticks w) (uuids w) (S (drawn w)).

(** [localStorage.getItem(key)]; [None] is [null]. *)
Definition getItem (key : string) : M (option string) :=
  λ w, Some (localStorage w !! key, w).

(** [localStorage.setItem(key, value)].  A full or unavailable medium is not
    modelled: the write always succeeds. *)
Definition setItem (key value : string) : M unit :=
  λ w, Some (tt, write key value w).

(** [new Date()] *)
Definition newDate : M JsDate :=
  λ w, Some (DateObj (clock w (ticks w)), tick w).

(** [uuidv4()] *)
Definition uuidv4 : M string :=
  λ w, Some (uuids w (drawn w), draw w).

(** ** Library functions on arrays and strings *)

(** [Array.prototype.findIndex]: the first index whose element satisfies
    the predicate, [-1] when there is none. *)
Fixpoint findIndex {A : Type} (p : A → bool) (l : list A) : Z :=
  match l with
  | [] => -1
  | x :: l' =>
      if p x then 0
      else let i := findIndex p l' in if i <? 0 then -1 else i + 1
  end.

Fixpoint trimStart (s : string) : string :=
  match s with
  | EmptyString => EmptyString
  | String c s' => if Char.is_space c then trimStart s' else s
  end.

Fixpoint trimEnd (s : string) : string :=
  match s with
  | EmptyString => EmptyString
  | String c s' =>
      match trimEnd s' with
      | EmptyString => if Char.is_space c then EmptyString else String c EmptyString
      | t => String c t
      end
  end.

(** [String.prototype.trim] *)
Definition trim (s : string) : string := trimEnd (trimStart s).

(** ** The application *)

(** The storage key the application uses. *)
Definition todosKey : string := "todos".

(** [JSON.parse(localStorage.getItem('todos') ?? '[]')] *)
Definition readTodos : M (list Todo) :=
  text ← getItem todosKey;
  lift (JSON.parse (default "[]" text)).

Definition todoReducer (state : list Todo) (action : Action) : M (list Todo) :=
  todos ← readTodos;
  let id := Partial.id (Action.payload action) in
  let content := Partial.content (Action.payload action) in
  let isDone := Partial.isDone (Action.payload action) in
  if Action.type action =? TodoAction.CREATE then
    match content with
    | None | Some EmptyString => mret state
    | Some content =>
        newId ← uuidv4;
        created ← newDate;
        modified ← newDate;
        let newTodo := Todo.mk newId content false created modified in
        setItem todosKey (JSON.stringify (state ++ [newTodo]));;
        mret (state ++ [newTodo])
    end
  else if Action.type action =? TodoAction.DELETE then
    let filtered := filter (λ todo, Some (Todo.id todo) ≠ id) todos in
    setItem todosKey (JSON.stringify filtered);;
    mret filtered
  else if Action.type action =? TodoAction.UPDATE then
    let index :=
      findIndex (λ todo, bool_decide (Some (Todo.id todo) = id)) todos in
    if index <? 0 then mret state
    else
      todo ← lift (todos !! Z.to_nat index);
      let todo :=
        match content with
        | None | Some EmptyString => todo
        | Some content => Todo.set_content content todo
        end in
      let todo :=
        match isDone with
        | Some isDone => Todo.set_isDone isDone todo
        | None => todo
        end in
      now ← newDate;
      let todo := Todo.set_lastModified now todo in
      let todos := <[Z.to_nat index := todo]> todos in
      setItem todosKey (JSON.stringify todos);;
      mret todos
  else mret state.

(** [useReducer(todoReducer, JSON.parse(...))]: the first in-memory list. *)
Definition initialState : M (list Todo) := readTodos.

(** [dispatch(action)]: the next in-memory list is what the reducer makes
    of the current one. *)
Definition dispatch (action : Action) (todos : list Todo) : M (list Todo) :=
  todoReducer todos action.

Definition deleteTodo (id : string) : list Todo → M (list Todo) :=
  dispatch (Action.mk (Some (Partial.mk (Some id) None None None None))
                      TodoAction.DELETE).

(** [{ id, ...data }]: a property of [data] wins over [id]. *)
Definition updateTodo (id : string) (data : Partial.t)
  : list Todo → M (list Todo) :=
  dispatch (Action.mk
              (Some (Partial.mk (Some (default id (Partial.id data)))
                                (Partial.content data) (Partial.isDone data)
                                (Partial.dateCreated data)
                                (Partial.lastModified data)))
              TodoAction.UPDATE).

Definition createAction (content : string) : Action :=
  Action.mk (Some (Partial.mk None (Some content) None None None))
            TodoAction.CREATE.

(** [handleSubmit]: [input] is the value of the text field ([None] when
    [inputRef.current] is null).  Returns the in-memory list and the value
    of the field afterwards. *)
Definition handleSubmit (input : option string) (todos : list Todo)
  : M (list Todo * option string) :=
  match input with
  | None => mret (todos, None)
  | Some value =>
      let content := trim value in
      match content with
      | EmptyString => mret (todos, Some value)
      | _ =>
          todos' ← dispatch (createAction content) todos;
          mret (todos', Some EmptyString)
      end
  end.

(** A sequence of dispatches, each on the list the previous one returned. *)
Fixpoint dispatchAll (actions : list Action) (todos : list Todo)
  : M (list Todo) :=
  match actions with
  | [] => mret todos
  | action :: rest =>
      todos' ← dispatch action todos;
      dispatchAll rest todos'
  end.

(** ** The item component

    [TodoItem] shows one record in a paragraph and reacts to a click on it,
    to its losing focus, to a key and to its two buttons.  Of the paragraph
    the handlers read and write four things. *)
Module Paragraph.

Record t : Type := mk {
  contenteditable : bool;
  textContent : option string;
  lineThrough : bool;
  focused : bool
}.

(** [removeAttribute('contenteditable')] and [contentEditable = 'true'] *)
Definition set_contenteditable (b : bool) (p : t) : t :=
  mk b (textContent p) (lineThrough p) (focused p).

(** [textContent = text] *)
Definition set_textContent (text : string) (p : t) : t :=
  mk (contenteditable p) (Some text) (lineThrough p) (focused p).

(** [classList.add('line-through')] and [classList.remove('line-through')] *)
Definition set_lineThrough (b : bool) (p : t) : t :=
  mk (contenteditable p) (textContent p) b (focused p).

(** [focus()] *)
Definition focus (p : t) : t :=
  mk (contenteditable p) (textContent p) (lineThrough p) true.

End Paragraph.

(** [confirmDelete]: [answer] is what the user tells [confirm]. *)
Definition confirmDelete (answer : bool) (todo : Todo) (todos : list Todo)
  : M (list Todo) :=
  if answer then deleteTodo (Todo.id todo) todos else mret todos.

(** [toggleIsDone]: [current] is [contentRef.current], [todo] the record the
    item was rendered with. *)
Definition toggleIsDone (current : option Paragraph.t) (todo : Todo)
           (todos : list Todo) : M (list Todo) :=
  match current with
  | None => mret todos
  | Some p =>
      if Paragraph.contenteditable p then mret todos
      else updateTodo (Todo.id todo)
             (Partial.mk None None (Some (negb (Todo.isDone todo))) None None)
             todos
  end.

(** [updateContent]: returns the in-memory list and the paragraph
    afterwards. *)
Definition updateContent (current : option Paragraph.t) (todo : Todo)
           (todos : list Todo) : M (list Todo * option Paragraph.t) :=
  match current with
  | None => mret (todos, None)
  | Some p =>
      let p := Paragraph.set_contenteditable false p in
      let content := trim (default "" (Paragraph.textContent p)) in
      let p := if Todo.isDone todo then Paragraph.set_lineThrough true p
               else p in
      match content with
      | EmptyString =>
          mret (todos, Some (Paragraph.set_textContent (Todo.content todo) p))
      | _ =>
          todos' ← updateTodo (Todo.id todo)
                     (Partial.mk None (Some content) None None None) todos;
          mret (todos', Some p)
      end
  end.

(** [updateContentOnEnterKey]: [key] is [event.key]. *)
Definition updateContentOnEnterKey (key : string)
           (current : option Paragraph.t) (todo : Todo) (todos : list Todo)
  : M (list Todo * option Paragraph.t) :=
  if String.eqb key "Enter" then updateContent current todo todos
  else mret (todos, current).

(** [focusUpdate] *)
Definition focusUpdate (current : option Paragraph.t) (todo : Todo)
  : option Paragraph.t :=
  match current with
  | None => None
  | Some p =>
      let p := Paragraph.set_contenteditable true p in
      let p := if Todo.isDone todo then Paragraph.set_lineThrough false p
               else p in
      Some (Paragraph.focus p)
  end.

(** ** Vocabulary of the statements *)

Definition ids (todos : list Todo) : list string := Todo.id <$> todos.

(** The list the store holds, as the reducer and [App] read it. *)
Definition persisted (w : World) : option (list Todo) :=
  JSON.parse (default "[]" (localStorage w !! todosKey)).

(** The in-memory list and the persisted one agree: reading the store gives
    the in-memory list, dates in their stored form. *)
Definition consistent (state : list Todo) (w : World) : Prop :=
  persisted w = Some (JSON.stored state).

(** The actions that mutate, [todos] being the persisted list: CREATE with
    non-empty content, DELETE, and UPDATE of an id that is there. *)
Inductive Mutating (todos : list Todo) : Action → Prop :=
| Mutating_create (data : Partial.t) (content : string) :
    Partial.content data = Some content →
    content ≠ "" →
    Mutating todos (Action.mk (Some data) TodoAction.CREATE)
| Mutating_delete (data : option Partial.t) :
    Mutating todos (Action.mk data TodoAction.DELETE)
| Mutating_update (data : Partial.t) (id : string) :
    Partial.id data = Some id →
    id ∈ ids todos →
    Mutating todos (Action.mk (Some data) TodoAction.UPDATE).

(** The id generator never repeats itself from now on... *)
Definition uuids_distinct (w : World) : Prop :=
  ∀ m n : nat, (drawn w ≤ m)%nat → (drawn w ≤ n)%nat →
               uuids w m = uuids w n → m = n.

(** ... and never gives an id that [todos] already uses. *)
Definition uuids_fresh (w : World) (todos : list Todo) : Prop :=
  ∀ n : nat, (drawn w ≤ n)%nat → uuids w n ∉ ids todos.

(** What the uniqueness of ids rests on, from one dispatch to the next. *)
Definition unique_inv (state : list Todo) (w : World) : Prop :=
  consistent state w ∧ NoDup (ids state)
  ∧ uuids_distinct w ∧ uuids_fresh w state.

(** The text consists only of white space (the empty text included). *)
Fixpoint all_space (s : string) : bool :=
  match s with
  | EmptyString => true
  | String c s' => Char.is_space c && all_space s'
  end.

(** The content an UPDATE leaves in a record. *)
Definition updated_content (content : option string) (old : string) : string :=
  match content with
  | None | Some EmptyString => old
  | Some c => c
  end.

(** ** Sample data *)

Module Sample.

(** A clock that advances by a millisecond between any two readings, and
    one that is read several times within the same millisecond. *)
Definition tickingClock (n : nat) : Z := 1000 + Z.of_nat n.
Definition frozenClock (_ : nat) : Z := 1000.

Fixpoint tally (n : nat) : string :=
  match n with
  | O => EmptyString
  | S n' => String "i"%char (tally n')
  end.

(** Ids [u], [ui], [uii], ... *)
Definition sampleUuids (n : nat) : string := String "u"%char (tally n).

(** A browser whose storage is empty. *)
Definition freshWorld : World := mkWorld ∅ tickingClock 0 sampleUuids 0.
Definition frozenWorld : World := mkWorld ∅ frozenClock 0 sampleUuids 0.

Definition milk : Todo :=
  Todo.mk "u" "Buy milk" false (DateObj 1000) (DateObj 1001).

Definition milkStored : Todo :=
  Todo.mk "u" "Buy milk" false
    (DateStr "1970-01-01T00:00:01.000Z") (DateStr "1970-01-01T00:00:01.001Z").

Definition eggsStored : Todo :=
  Todo.mk "v" "Eggs" true
    (DateStr "1970-01-01T00:00:00.500Z") (DateStr "1970-01-01T00:00:00.700Z").

(** A browser whose storage holds [milkStored; eggsStored]. *)
Definition stockedWorld : World :=
  mkWorld {[ todosKey := JSON.stringify [milkStored; eggsStored] ]}
          tickingClock 2 sampleUuids 1.

(** The same two records made while the clock stood still, and the
    browser that holds the first of them. *)
Definition milkFrozen : Todo :=
  Todo.mk "u" "Buy milk" false (DateObj 1000) (DateObj 1000).

Definition milkFrozenStored : Todo :=
  Todo.mk "u" "Buy milk" false
    (DateStr "1970-01-01T00:00:01.000Z") (DateStr "1970-01-01T00:00:01.000Z").

Definition frozenStockedWorld : World :=
  mkWorld {[ todosKey := JSON.stringify [milkFrozen] ]}
          frozenClock 2 sampleUuids 1.

(** A record whose content is a single space. *)
Definition blank : Todo :=
  Todo.mk "u" " " false (DateObj 1000) (DateObj 1001).

Definition toggle (id : string) (isDone : bool) : Action :=
  Action.mk (Some (Partial.mk (Some id) None (Some isDone) None None))
            TodoAction.UPDATE.

Definition delete (id : string) : Action :=
  Action.mk (Some (Partial.mk (Some id) None None None None))
            TodoAction.DELETE.

End Sample.

(** ** Vocabulary of the further properties *)

(** A content as the two text handlers let it through: not empty, and
    without white space at either end. *)
Definition tidy (content : string) : Prop :=
  content ≠ "" ∧ trim content = content.

Definition all_tidy (todos : list Todo) : Prop :=
  ∀ todo, todo ∈ todos → tidy (Todo.content todo).

(** The action a DELETE button sends for [id]. *)
Definition deleteAction (id : string) : Action :=
  Action.mk (Some (Partial.mk (Some id) None None None None))
            TodoAction.DELETE.

(** A paragraph at rest, showing [text]. *)
Definition restingParagraph (text : string) (done : bool) : Paragraph.t :=
  Paragraph.mk false (Some text) done false.

(** * Properties *)

(** ** The platform model at work *)

Example toISOString_epoch :
  DateTime.toISOString 0 = "1970-01-01T00:00:00.000Z".
Proof. reflexivity. Qed.

Example toISOString_leap_day :
  DateTime.toISOString 951782400000 = "2000-02-29T00:00:00.000Z".
Proof. reflexivity. Qed.

Example toISOString_before_epoch :
  DateTime.toISOString (-1) = "1969-12-31T23:59:59.999Z".
Proof. reflexivity. Qed.

Example toISOString_last_instant :
  DateTime.toISOString DateTime.maxTime = "+275760-09-13T00:00:00.000Z".
Proof. reflexivity. Qed.

Example parse_toISOString_sample :
  DateTime.parse (DateTime.toISOString 1793647845123) = Some 1793647845123.
Proof. vm_compute. reflexivity. Qed.

Example stringify_sample :
  JSON.stringify [Sample.eggsStored]
  = "[{" +:+ JSON.key "id" +:+ JSONString.quote "v" +:+ ","
    +:+ JSON.key "content" +:+ JSONString.quote "Eggs" +:+ ","
    +:+ JSON.key "isDone" +:+ "true,"
    +:+ JSON.key "dateCreated" +:+ JSONString.quote "1970-01-01T00:00:00.500Z"
    +:+ "," +:+ JSON.key "lastModified"
    +:+ JSONString.quote "1970-01-01T00:00:00.700Z" +:+ "}]".
Proof. vm_compute. reflexivity. Qed.

Example escape_sample :
  JSONString.escape (String (Char.of_code 10) (String (Char.of_code 1) "a\"))
  = "\n\u0001a\\".
Proof. vm_compute. reflexivity. Qed.

Example trim_sample : trim "  Buy milk  " = "Buy milk".
Proof. reflexivity. Qed.

Example submit_sample :
  fst <$> handleSubmit (Some "  Buy milk  ") [] Sample.freshWorld
  = Some ([Sample.milk], Some "").
Proof. vm_compute. reflexivity. Qed.

(** ** Strings *)

Lemma string_app_nil_l (t : string) : "" +:+ t = t.
Proof. reflexivity. Qed.

Lemma string_app_cons (c : ascii) (s t : string) :
  String c s +:+ t = String c (s +:+ t).
Proof. reflexivity. Qed.

Lemma string_app_assoc (s t u : string) : (s +:+ t) +:+ u = s +:+ (t +:+ u).
Proof.
  induction s as [|c s IH]; [reflexivity|].
  rewrite !string_app_cons. by rewrite IH.
Qed.

Lemma string_length_app (s t : string) :
  String.length (s +:+ t) = (String.length s + String.length t)%nat.
Proof.
  induction s as [|c s IH]; [reflexivity|].
  rewrite string_app_cons. simpl. by rewrite IH.
Qed.

Create Rewrite HintDb str.
#[local] Hint Rewrite string_app_assoc string_app_cons string_app_nil_l : str.

Ltac norm_str := autorewrite with str.

(** ** String literals survive the trip *)

Lemma read_chars_escape_char (c : ascii) (t : string) :
  JSONString.read_chars (JSONString.escape_char c +:+ t)
  = JSONString.cons_fst c (JSONString.read_chars t).
Proof.
  destruct c as [[] [] [] [] [] [] [] []]; reflexivity.
Qed.

Lemma read_chars_escape (s rest : string) :
  JSONString.read_chars (JSONString.escape s +:+ String Char.dquote rest)
  = Some (s, rest).
Proof.
  induction s as [|c s IH]; [reflexivity|].
  cbn [JSONString.escape]. rewrite string_app_assoc, read_chars_escape_char, IH.
  reflexivity.
Qed.

Lemma read_quote (s rest : string) :
  JSONString.read (JSONString.quote s +:+ rest) = Some (s, rest).
Proof.
  unfold JSONString.quote. norm_str.
  change (JSONString.read (String Char.dquote ?x)) with (JSONString.read_chars x).
  apply read_chars_escape.
Qed.

(** ** Records and lists survive the trip, dates as strings *)

Lemma read_key_key (name rest : string) :
  JSON.read_key name (JSON.key name +:+ rest) = Some rest.
Proof.
  unfold JSON.read_key, JSON.key. rewrite string_app_assoc, read_quote.
  cbn. rewrite String.eqb_refl. reflexivity.
Qed.

Lemma read_bool_stringify (b : bool) (rest : string) :
  JSON.read_bool (JSON.stringify_bool b +:+ rest) = Some (b, rest).
Proof. destruct b; reflexivity. Qed.

Lemma expect_app (p rest : string) : JSON.expect p (p +:+ rest) = Some rest.
Proof.
  induction p as [|c p IH]; [reflexivity|].
  rewrite string_app_cons. cbn. unfold Char.eqb. by rewrite Ascii.eqb_refl.
Qed.

Lemma read_todo_stringify (todo : Todo) (rest : string) :
  JSON.read_todo (JSON.stringify_todo todo +:+ rest)
  = Some (JSON.stored_todo todo, rest).
Proof.
  unfold JSON.read_todo, JSON.stringify_todo.
  rewrite !string_app_assoc.
  repeat first
    [ rewrite expect_app | rewrite read_key_key | rewrite read_quote
    | rewrite read_bool_stringify | progress cbn [mbind option_bind] ].
  reflexivity.
Qed.

Lemma stringify_todo_head (todo : Todo) :
  ∃ s, JSON.stringify_todo todo = String "{"%char s.
Proof. unfold JSON.stringify_todo. rewrite string_app_cons. eauto. Qed.

Lemma read_elements_stringify (todos : list Todo) (fuel : nat) (rest : string) :
  todos ≠ [] →
  (length todos ≤ fuel)%nat →
  JSON.read_elements fuel (JSON.stringify_elements todos +:+ "]" +:+ rest)
  = Some (JSON.stored todos, rest).
Proof.
  revert fuel. induction todos as [|todo todos IH]; [done|].
  intros fuel _ Hfuel. destruct fuel as [|fuel]; [simpl in Hfuel; lia|].
  destruct todos as [|todo' todos].
  - cbn [JSON.stringify_elements JSON.read_elements].
    rewrite read_todo_stringify. reflexivity.
  - cbn [JSON.stringify_elements JSON.read_elements].
    rewrite !string_app_assoc, read_todo_stringify.
    cbn [mbind option_bind]. rewrite string_app_cons.
    change (Char.eqb ","%char ","%char) with true. cbn iota.
    rewrite string_app_nil_l.
    rewrite IH; [reflexivity|done|simpl in *; lia].
Qed.

Lemma length_stringify_elements (todos : list Todo) :
  (length todos ≤ String.length (JSON.stringify_elements todos))%nat.
Proof.
  induction todos as [|todo todos IH]; [simpl; lia|].
  destruct (stringify_todo_head todo) as [s Hs].
  destruct todos as [|todo' todos].
  - cbn [JSON.stringify_elements]. rewrite Hs. simpl. lia.
  - cbn [JSON.stringify_elements] in *. rewrite !string_length_app, Hs.
    simpl in *. lia.
Qed.

(** [JSON.parse(JSON.stringify(todos))] is [todos] with every date replaced
    by its string. *)
Lemma parse_stringify (todos : list Todo) :
  JSON.parse (JSON.stringify todos) = Some (JSON.stored todos).
Proof.
  destruct todos as [|todo todos]; [reflexivity|].
  unfold JSON.parse, JSON.stringify.
  rewrite expect_app.
  destruct (stringify_todo_head todo) as [s Hs].
  assert (JSON.expect "]" (JSON.stringify_elements (todo :: todos) +:+ "]")
          = None) as ->.
  { destruct todos; cbn [JSON.stringify_elements]; rewrite Hs; reflexivity. }
  change (JSON.stringify_elements (todo :: todos) +:+ "]")
    with (JSON.stringify_elements (todo :: todos) +:+ "]" +:+ "").
  rewrite read_elements_stringify; [reflexivity|done|].
  rewrite string_app_cons, string_app_nil_l. cbn [String.length].
  rewrite string_length_app.
  pose proof (length_stringify_elements (todo :: todos)). lia.
Qed.

(** ** Dates: [Date.parse] reads back what [toISOString] writes *)

Lemma digit_char (r : Z) :
  0 ≤ r < 10 →
  Char.is_digit (Char.of_code (48 + r)) = true
  ∧ Char.code (Char.of_code (48 + r)) - 48 = r.
Proof.
  intros Hr.
  assert (r = 0 ∨ r = 1 ∨ r = 2 ∨ r = 3 ∨ r = 4 ∨ r = 5 ∨ r = 6 ∨ r = 7
          ∨ r = 8 ∨ r = 9) as Hcases by lia.
  repeat destruct Hcases as [-> | Hcases]; try subst r; by vm_compute.
Qed.

Lemma read_digits_digits (w j : nat) (m a : Z) (s : string) :
  0 ≤ m < 10 ^ Z.of_nat w →
  DateTime.read_digits (w + j) a (DateTime.digits w m s)
  = DateTime.read_digits j (a * 10 ^ Z.of_nat w + m) s.
Proof.
  revert j m a s. induction w as [|w IH]; intros j m a s Hm.
  - cbn [DateTime.digits Nat.add]. f_equal. cbn in Hm. lia.
  - cbn [DateTime.digits].
    rewrite Nat2Z.inj_succ, Z.pow_succ_r in * by lia.
    replace (S w + j)%nat with (w + S j)%nat by lia.
    rewrite IH by (split; [apply Z.div_pos; lia | apply Z.div_lt_upper_bound; lia]).
    cbn [DateTime.read_digits].
    destruct (digit_char (m mod 10)) as [-> ->]; [apply Z.mod_pos_bound; lia|].
    f_equal. pose proof (Z.div_mod m 10). lia.
Qed.

Lemma read_digits_exact (w : nat) (m : Z) (s : string) :
  0 ≤ m < 10 ^ Z.of_nat w →
  DateTime.read_digits w 0 (DateTime.digits w m s) = Some (m, s).
Proof.
  intros Hm. rewrite <- (Nat.add_0_r w) at 1.
  rewrite read_digits_digits by done. cbn [DateTime.read_digits]. f_equal.
Qed.

Lemma is_leap_spec (y : Z) :
  DateTime.is_leap y = true
  ↔ y mod 4 = 0 ∧ (y mod 100 ≠ 0 ∨ y mod 400 = 0).
Proof.
  unfold DateTime.is_leap.
  rewrite andb_true_iff, orb_true_iff, negb_true_iff, !Z.eqb_eq, Z.eqb_neq.
  reflexivity.
Qed.

Ltac decide_tests :=
  repeat match goal with
  | |- context [?a =? ?b] =>
      let v := eval vm_compute in (a =? b) in
      match v with
      | true => change (a =? b) with true
      | false => change (a =? b) with false
      end
  | |- context [?a <=? ?b] =>
      let v := eval vm_compute in (a <=? b) in
      match v with
      | true => change (a <=? b) with true
      | false => change (a <=? b) with false
      end
  | |- context [?a <? ?b] =>
      let v := eval vm_compute in (a <? b) in
      match v with
      | true => change (a <? b) with true
      | false => change (a <? b) with false
      end
  end;
  cbn [orb andb negb]; cbv iota.

(** The calendar date of a day is a valid one, from which the day is
    recovered; its year lies in the 400-year era of the day. *)
Lemma civil_from_days_valid (days : Z) :
  ∃ y m d,
    DateTime.civil_from_days days = (y, m, d)
    ∧ 1 ≤ m ≤ 12
    ∧ 1 ≤ d ≤ DateTime.days_in_month y m
    ∧ DateTime.days_from_civil y m d = days
    ∧ (days + 719468) / 146097 * 400 ≤ y ≤ (days + 719468) / 146097 * 400 + 400.
Proof.
  unfold DateTime.civil_from_days.
  set (z := days + 719468).
  set (era := z / 146097).
  set (doe := z - era * 146097).
  assert (0 ≤ doe < 146097) as Hdoe.
  { subst doe era. Z.div_mod_to_equations. lia. }
  set (yoe := (doe - doe / 1460 + doe / 36524 - doe / 146096) / 365).
  set (doy := doe - (365 * yoe + yoe / 4 - yoe / 100)).
  assert (0 ≤ yoe ≤ 399 ∧ 0 ≤ doy ≤ 365
          ∧ (doy = 365 →
             (yoe + 1) mod 4 = 0
             ∧ ((yoe + 1) mod 100 ≠ 0 ∨ (yoe + 1) mod 400 = 0)))
    as (Hyoe & Hdoy & Hleap).
  { subst yoe doy. Z.div_mod_to_equations. lia. }
  set (mp := (5 * doy + 2) / 153).
  assert (153 * mp ≤ 5 * doy + 2 < 153 * mp + 153) as Hmpeq
    by (subst mp; Z.div_mod_to_equations; lia).
  assert (doe = 365 * yoe + yoe / 4 - yoe / 100 + doy) as Hdoe' by (subst doy; lia).
  assert (days = era * 146097 + doe - 719468) as Hdays by (subst doe z; lia).
  assert (doy = 365 → DateTime.is_leap (yoe + era * 400 + 1) = true) as Hfeb.
  { intros Hlast. apply is_leap_spec. specialize (Hleap Hlast).
    Z.div_mod_to_equations. lia. }
  clearbody mp doy yoe doe era. clear z Hleap.
  eexists _, _, _. split; [reflexivity|].
  assert (mp = 0 ∨ mp = 1 ∨ mp = 2 ∨ mp = 3 ∨ mp = 4 ∨ mp = 5 ∨ mp = 6
          ∨ mp = 7 ∨ mp = 8 ∨ mp = 9 ∨ mp = 10 ∨ mp = 11) as Hcases by lia.
  unfold DateTime.days_from_civil, DateTime.days_in_month.
  repeat destruct Hcases as [-> | Hcases]; try subst mp; decide_tests.
  all: try (repeat split; (Z.div_mod_to_equations; lia)).
  destruct (DateTime.is_leap (yoe + era * 400 + 1)) eqn:Hleap.
  - repeat split; (Z.div_mod_to_equations; lia).
  - assert (doy ≠ 365) by (intros Hlast; specialize (Hfeb Hlast); congruence).
    repeat split; (Z.div_mod_to_equations; lia).
Qed.

Lemma expect_char (c : ascii) (s : string) :
  DateTime.expect c (String c s) = Some s.
Proof. unfold DateTime.expect, Char.eqb. by rewrite Ascii.eqb_refl. Qed.

Lemma digits_head (w : nat) (n : Z) (s : string) :
  ∃ r rest, 0 ≤ r < 10
            ∧ DateTime.digits (S w) n s = String (Char.of_code (48 + r)) rest.
Proof.
  revert n s. induction w as [|w IH]; intros n s.
  - exists (n mod 10), s. split; [apply Z.mod_pos_bound; lia | reflexivity].
  - change (DateTime.digits (S (S w)) n s)
      with (DateTime.digits (S w) (n / 10)
              (String (Char.of_code (48 + n mod 10)) s)).
    apply IH.
Qed.

Lemma digit_not_sign (r : Z) :
  0 ≤ r < 10 →
  Char.eqb (Char.of_code (48 + r)) "+"%char = false
  ∧ Char.eqb (Char.of_code (48 + r)) "-"%char = false.
Proof.
  intros Hr.
  assert (r = 0 ∨ r = 1 ∨ r = 2 ∨ r = 3 ∨ r = 4 ∨ r = 5 ∨ r = 6 ∨ r = 7
          ∨ r = 8 ∨ r = 9) as Hcases by lia.
  repeat destruct Hcases as [-> | Hcases]; try subst r; by vm_compute.
Qed.

Lemma read_year_string (y : Z) (s : string) :
  -999999 ≤ y ≤ 999999 →
  DateTime.read_year (DateTime.year_string y s) = Some (y, s).
Proof.
  intros Hy. unfold DateTime.year_string.
  destruct ((0 <=? y) && (y <=? 9999)) eqn:Hsmall.
  - apply andb_true_iff in Hsmall as [?%Z.leb_le ?%Z.leb_le].
    destruct (digits_head 3 y s) as (r & rest & Hr & Hhead).
    unfold DateTime.read_year. rewrite Hhead.
    destruct (digit_not_sign r Hr) as [-> ->].
    rewrite <- Hhead. apply read_digits_exact. cbn. lia.
  - destruct (y <? 0) eqn:Hneg.
    + apply Z.ltb_lt in Hneg. cbn [DateTime.read_year].
      change (Char.eqb "-" "+") with false. change (Char.eqb "-" "-") with true.
      cbv iota. rewrite read_digits_exact by (cbn; lia).
      destruct (- y =? 0) eqn:E; [apply Z.eqb_eq in E; lia|].
      f_equal. f_equal. lia.
    + apply Z.ltb_ge in Hneg. cbn [DateTime.read_year].
      change (Char.eqb "+" "+") with true. cbv iota.
      apply read_digits_exact. cbn. lia.
Qed.

(** [Date.parse] gives back the time value [toISOString] was given. *)
Lemma parse_toISOString (t : Z) :
  - DateTime.maxTime ≤ t ≤ DateTime.maxTime →
  DateTime.parse (DateTime.toISOString t) = Some t.
Proof.
  intros Ht. unfold DateTime.toISOString, DateTime.parse.
  destruct (civil_from_days_valid (t / DateTime.msPerDay))
    as (y & m & d & -> & Hm & Hd & Hback & Hy).
  assert (-999999 ≤ y ≤ 999999) as Hyear.
  { unfold DateTime.maxTime, DateTime.msPerDay in *.
    Z.div_mod_to_equations. lia. }
  set (ms := t mod DateTime.msPerDay).
  assert (0 ≤ ms < DateTime.msPerDay) as Hms
    by (apply Z.mod_pos_bound; by vm_compute).
  assert (d ≤ 31) as Hd31.
  { unfold DateTime.days_in_month in Hd. repeat case_match; lia. }
  unfold DateTime.msPerDay in *.
  rewrite read_year_string by done. cbn [mbind option_bind].
  rewrite expect_char. cbn [mbind option_bind].
  rewrite read_digits_exact by (cbn; lia). cbn [mbind option_bind].
  rewrite expect_char. cbn [mbind option_bind].
  rewrite read_digits_exact by (cbn; lia). cbn [mbind option_bind].
  rewrite expect_char. cbn [mbind option_bind].
  rewrite read_digits_exact by (cbn; Z.div_mod_to_equations; lia).
  cbn [mbind option_bind].
  rewrite expect_char. cbn [mbind option_bind].
  rewrite read_digits_exact by (cbn; Z.div_mod_to_equations; lia).
  cbn [mbind option_bind].
  rewrite expect_char. cbn [mbind option_bind].
  rewrite read_digits_exact by (cbn; Z.div_mod_to_equations; lia).
  cbn [mbind option_bind].
  rewrite expect_char. cbn [mbind option_bind].
  rewrite read_digits_exact by (cbn; Z.div_mod_to_equations; lia).
  cbn [mbind option_bind].
  rewrite Hback.
  replace ((1 <=? m) && (m <=? 12) && (1 <=? d)
           && (d <=? DateTime.days_in_month y m)
           && (ms / 3600000 <? 24) && (ms / 60000 mod 60 <? 60)
           && (ms / 1000 mod 60 <? 60)) with true.
  2:{ symmetry. repeat (apply andb_true_iff; split);
        first [apply Z.leb_le | apply Z.ltb_lt];
        try lia; Z.div_mod_to_equations; lia. }
  replace (t / 86400000 * 86400000 + ms / 3600000 * 3600000
           + ms / 60000 mod 60 * 60000 + ms / 1000 mod 60 * 1000
           + ms mod 1000) with t.
  2:{ subst ms. Z.div_mod_to_equations. lia. }
  replace ((- DateTime.maxTime <=? t) && (t <=? DateTime.maxTime)) with true.
  2:{ symmetry. apply andb_true_iff. split; apply Z.leb_le; lia. }
  reflexivity.
Qed.

(** A date keeps its instant on the way through storage: only its
    representation changes. *)
Lemma time_toJSON (d : JsDate) (t : Z) :
  JsDate.time d = Some t →
  - DateTime.maxTime ≤ t ≤ DateTime.maxTime →
  JsDate.time (DateStr (JsDate.toJSON d)) = Some t.
Proof.
  destruct d as [t' | s]; cbn [JsDate.time JsDate.toJSON]; [|done].
  intros [= ->] Ht. by apply parse_toISOString.
Qed.

(** ** What comes out of the store is in stored form *)

Lemma stored_todo_idem (todo : Todo) :
  JSON.stored_todo (JSON.stored_todo todo) = JSON.stored_todo todo.
Proof. reflexivity. Qed.

Lemma stored_idem (todos : list Todo) :
  JSON.stored (JSON.stored todos) = JSON.stored todos.
Proof.
  unfold JSON.stored. rewrite <- list_fmap_compose. reflexivity.
Qed.

Lemma ids_stored (todos : list Todo) : ids (JSON.stored todos) = ids todos.
Proof.
  unfold ids, JSON.stored. rewrite <- list_fmap_compose. reflexivity.
Qed.

Lemma read_todo_stored (s rest : string) (todo : Todo) :
  JSON.read_todo s = Some (todo, rest) → JSON.stored_todo todo = todo.
Proof.
  unfold JSON.read_todo. intros H.
  repeat (simplify_option_eq || case_match).
  reflexivity.
Qed.

Lemma read_elements_stored (fuel : nat) (s rest : string) (todos : list Todo) :
  JSON.read_elements fuel s = Some (todos, rest) → JSON.stored todos = todos.
Proof.
  revert s rest todos. induction fuel as [|fuel IH]; [done|].
  intros s rest todos. cbn [JSON.read_elements].
  destruct (JSON.read_todo s) as [[todo s']|] eqn:Htodo; [|done].
  apply read_todo_stored in Htodo. cbn [mbind option_bind].
  destruct s' as [|c s']; [done|].
  destruct (Char.eqb c ","%char).
  - destruct (JSON.read_elements fuel s') as [[todos' r]|] eqn:Hrest; [|done].
    cbn [mbind option_bind]. intros [= <- <-].
    cbn [JSON.stored fmap list_fmap]. rewrite Htodo. f_equal. eapply IH, Hrest.
  - destruct (Char.eqb c "]"%char); [|done].
    intros [= <- <-]. cbn [JSON.stored fmap list_fmap]. by rewrite Htodo.
Qed.

Lemma parse_stored (text : string) (todos : list Todo) :
  JSON.parse text = Some todos → JSON.stored todos = todos.
Proof.
  unfold JSON.parse. intros H.
  repeat case_match; simplify_eq; try done.
  eapply read_elements_stored; eassumption.
Qed.

Lemma persisted_stored (w : World) (todos : list Todo) :
  persisted w = Some todos → JSON.stored todos = todos.
Proof. apply parse_stored. Qed.

(** ** Reading and writing the store *)

Lemma readTodos_persisted (w : World) :
  readTodos w = match persisted w with
                | Some todos => Some (todos, w)
                | None => None
                end.
Proof.
  unfold readTodos, persisted, getItem, mbind, M_bind, lift.
  destruct (JSON.parse _); reflexivity.
Qed.

Lemma persisted_write (todos : list Todo) (w : World) :
  persisted (write todosKey (JSON.stringify todos) w) = Some (JSON.stored todos).
Proof.
  unfold persisted, write. cbn [localStorage].
  rewrite lookup_insert_eq. cbn [default]. apply parse_stringify.
Qed.

Lemma consistent_write (todos : list Todo) (w : World) :
  consistent todos (write todosKey (JSON.stringify todos) w).
Proof. apply persisted_write. Qed.

(** ** [findIndex] *)

Lemma findIndex_range {A : Type} (p : A → bool) (l : list A) :
  -1 ≤ findIndex p l < Z.of_nat (length l).
Proof.
  induction l as [|x l IH]; cbn [findIndex length]; [lia|].
  destruct (p x); [lia|]. destruct (findIndex p l <? 0) eqn:E; lia.
Qed.

Lemma findIndex_none {A : Type} (p : A → bool) (l : list A) :
  findIndex p l < 0 ↔ ∀ x, x ∈ l → p x = false.
Proof.
  induction l as [|x l IH]; cbn [findIndex].
  - split; [intros _ y Hy; by apply elem_of_nil in Hy | lia].
  - pose proof (findIndex_range p l) as Hr.
    destruct (p x) eqn:Hx.
    + split; [lia|]. intros H. specialize (H x (list_elem_of_here _ _)). congruence.
    + destruct (findIndex p l <? 0) eqn:E.
      * apply Z.ltb_lt in E. split; [|lia]. intros _ y Hy.
        apply elem_of_cons in Hy as [->|Hy]; [done|]. by apply IH.
      * apply Z.ltb_ge in E. split; [lia|]. intros H. exfalso.
        assert (findIndex p l < 0); [|lia].
        apply IH. intros y Hy. apply H. by right.
Qed.

(** The index found splits the list at the first element that satisfies
    the predicate. *)
Lemma findIndex_split {A : Type} (p : A → bool) (l : list A) :
  0 ≤ findIndex p l →
  ∃ before x after,
    l = before ++ x :: after ∧
    Z.to_nat (findIndex p l) = length before ∧
    p x = true ∧
    (∀ y, y ∈ before → p y = false).
Proof.
  induction l as [|x l IH]; cbn [findIndex]; [lia|].
  destruct (p x) eqn:Hx.
  - intros _. exists [], x, l. repeat split; try done.
    intros y Hy. by apply elem_of_nil in Hy.
  - destruct (findIndex p l <? 0) eqn:E; [lia|].
    apply Z.ltb_ge in E. intros _.
    destruct (IH E) as (before & y & after & -> & Hlen & Hy & Hbefore).
    exists (x :: before), y, after. repeat split; try done.
    + cbn [length]. lia.
    + intros z Hz. apply elem_of_cons in Hz as [->|Hz]; [done|]. by apply Hbefore.
Qed.

Lemma findIndex_first {A : Type} (p : A → bool) (before after : list A) (x : A) :
  p x = true →
  (∀ y, y ∈ before → p y = false) →
  findIndex p (before ++ x :: after) = Z.of_nat (length before).
Proof.
  intros Hx. induction before as [|y before IH]; intros Hbefore.
  - cbn. by rewrite Hx.
  - cbn [app findIndex length]. rewrite (Hbefore y (list_elem_of_here _ _)).
    rewrite IH; [|intros z Hz; apply Hbefore; by right].
    destruct (Z.of_nat (length before) <? 0) eqn:E; [apply Z.ltb_lt in E|]; lia.
Qed.

(** ** The reducer, branch by branch *)

Section Branches.

Variables (state todos : list Todo) (w : World).
Hypothesis Hstore : persisted w = Some todos.

Lemma reducer_create (data : Partial.t) (content : string) :
  Partial.content data = Some content →
  content ≠ "" →
  todoReducer state (Action.mk (Some data) TodoAction.CREATE) w
  = let newTodo :=
      Todo.mk (uuids w (drawn w)) content false
              (DateObj (clock w (ticks w))) (DateObj (clock w (S (ticks w)))) in
    Some (state ++ [newTodo],
          write todosKey (JSON.stringify (state ++ [newTodo]))
                (tick (tick (draw w)))).
Proof.
  intros Hcontent Hne.
  unfold todoReducer, mbind, M_bind. rewrite readTodos_persisted, Hstore.
  unfold Action.payload. cbn [Action.type Action.data from_option id].
  change (TodoAction.CREATE =? TodoAction.CREATE) with true. cbn iota.
  rewrite Hcontent. destruct content; [done|]. reflexivity.
Qed.

Lemma reducer_create_nothing (action : Action) :
  Action.type action = TodoAction.CREATE →
  Partial.content (Action.payload action) = None
  ∨ Partial.content (Action.payload action) = Some "" →
  todoReducer state action w = Some (state, w).
Proof.
  intros Htype Hcontent.
  unfold todoReducer, mbind, M_bind. rewrite readTodos_persisted, Hstore, Htype.
  change (TodoAction.CREATE =? TodoAction.CREATE) with true. cbn iota.
  by destruct Hcontent as [-> | ->].
Qed.

Lemma reducer_delete (action : Action) :
  Action.type action = TodoAction.DELETE →
  todoReducer state action w
  = let filtered :=
      filter (λ todo, Some (Todo.id todo) ≠ Partial.id (Action.payload action))
             todos in
    Some (filtered, write todosKey (JSON.stringify filtered) w).
Proof.
  intros Htype.
  unfold todoReducer, mbind, M_bind. rewrite readTodos_persisted, Hstore, Htype.
  reflexivity.
Qed.

Lemma reducer_update_absent (action : Action) :
  Action.type action = TodoAction.UPDATE →
  (∀ todo, todo ∈ todos →
           Some (Todo.id todo) ≠ Partial.id (Action.payload action)) →
  todoReducer state action w = Some (state, w).
Proof.
  intros Htype Habsent.
  unfold todoReducer, mbind, M_bind. rewrite readTodos_persisted, Hstore, Htype.
  change (TodoAction.UPDATE =? TodoAction.CREATE) with false.
  change (TodoAction.UPDATE =? TodoAction.DELETE) with false.
  change (TodoAction.UPDATE =? TodoAction.UPDATE) with true. cbn iota.
  match goal with |- context [findIndex ?p todos] =>
    assert (findIndex p todos < 0) as Hneg end.
  { apply findIndex_none. intros todo Hin. apply bool_decide_eq_false.
    by apply Habsent. }
  apply Z.ltb_lt in Hneg. by rewrite Hneg.
Qed.

Lemma reducer_update (action : Action) (before after : list Todo) (todo : Todo) :
  Action.type action = TodoAction.UPDATE →
  todos = before ++ todo :: after →
  Some (Todo.id todo) = Partial.id (Action.payload action) →
  (∀ other, other ∈ before →
            Some (Todo.id other) ≠ Partial.id (Action.payload action)) →
  todoReducer state action w
  = let updated :=
      Todo.mk (Todo.id todo)
              (updated_content (Partial.content (Action.payload action))
                               (Todo.content todo))
              (default (Todo.isDone todo) (Partial.isDone (Action.payload action)))
              (Todo.dateCreated todo)
              (DateObj (clock w (ticks w))) in
    Some (before ++ updated :: after,
          write todosKey (JSON.stringify (before ++ updated :: after)) (tick w)).
Proof.
  intros Htype -> Hid Hbefore.
  unfold todoReducer, mbind, M_bind. rewrite readTodos_persisted, Hstore, Htype.
  change (TodoAction.UPDATE =? TodoAction.CREATE) with false.
  change (TodoAction.UPDATE =? TodoAction.DELETE) with false.
  change (TodoAction.UPDATE =? TodoAction.UPDATE) with true. cbn iota.
  rewrite findIndex_first.
  2:{ by apply bool_decide_eq_true. }
  2:{ intros other Hin. apply bool_decide_eq_false. by apply Hbefore. }
  destruct (Z.of_nat (length before) <? 0) eqn:E; [apply Z.ltb_lt in E; lia|].
  rewrite Nat2Z.id, list_lookup_middle by done.
  cbn [lift mret M_ret newDate setItem].
  replace (length before) with (length before + 0)%nat by lia.
  rewrite !insert_app_r. cbn [list_insert insert].
  destruct (Partial.content (Action.payload action)) as [[|c content]|],
           (Partial.isDone (Action.payload action)) as [b|]; reflexivity.
Qed.

Lemma reducer_other (action : Action) :
  Action.type action ≠ TodoAction.CREATE →
  Action.type action ≠ TodoAction.DELETE →
  Action.type action ≠ TodoAction.UPDATE →
  todoReducer state action w = Some (state, w).
Proof.
  intros H1 H2 H3.
  unfold todoReducer, mbind, M_bind. rewrite readTodos_persisted, Hstore.
  apply Z.eqb_neq in H1, H2, H3. by rewrite H1, H2, H3.
Qed.

End Branches.

(** The reducer reads the store before it looks at the action: when the
    text there cannot be read, every dispatch fails. *)
Lemma reducer_unreadable (state : list Todo) (action : Action) (w : World) :
  persisted w = None → todoReducer state action w = None.
Proof.
  intros H. unfold todoReducer, mbind, M_bind.
  by rewrite readTodos_persisted, H.
Qed.

(** Every dispatch on a readable store falls into one of four shapes. *)
Lemma reducer_cases (state todos : list Todo) (w : World) (action : Action) :
  persisted w = Some todos →
  todoReducer state action w = Some (state, w)
  ∨ (∃ newTodo,
       Todo.id newTodo = uuids w (drawn w)
       ∧ todoReducer state action w
         = Some (state ++ [newTodo],
                 write todosKey (JSON.stringify (state ++ [newTodo]))
                       (tick (tick (draw w)))))
  ∨ (let filtered :=
       filter (λ todo, Some (Todo.id todo) ≠ Partial.id (Action.payload action))
              todos in
     todoReducer state action w
     = Some (filtered, write todosKey (JSON.stringify filtered) w))
  ∨ (∃ before todo after updated,
       todos = before ++ todo :: after
       ∧ Todo.id updated = Todo.id todo
       ∧ todoReducer state action w
         = Some (before ++ updated :: after,
                 write todosKey (JSON.stringify (before ++ updated :: after))
                       (tick w))).
Proof.
  intros Hstore.
  destruct (decide (Action.type action = TodoAction.CREATE)) as [Hc|Hc].
  { destruct action as [[data|] type]; cbn in Hc; subst type.
    - destruct (Partial.content data) as [[|c content]|] eqn:Hcontent.
      + left. eapply reducer_create_nothing; eauto.
      + right; left. eexists. split; [|eapply reducer_create; eauto; done].
        reflexivity.
      + left. eapply reducer_create_nothing; eauto.
    - left. eapply reducer_create_nothing; eauto. }
  destruct (decide (Action.type action = TodoAction.DELETE)) as [Hd|Hd].
  { right; right; left. by eapply reducer_delete. }
  destruct (decide (Action.type action = TodoAction.UPDATE)) as [Hu|Hu].
  2:{ left. by eapply reducer_other. }
  set (p := λ todo, bool_decide (Some (Todo.id todo)
                                 = Partial.id (Action.payload action))).
  destruct (Z.lt_ge_cases (findIndex p todos) 0) as [Hneg|Hpos].
  - left. eapply reducer_update_absent; eauto.
    intros todo Hin.
    pose proof (proj1 (findIndex_none p todos) Hneg todo Hin) as Hp.
    by apply bool_decide_eq_false in Hp.
  - right; right; right.
    destruct (findIndex_split p todos Hpos)
      as (before & todo & after & Heq & _ & Hp & Hbefore).
    exists before, todo, after. eexists. split; [done|].
    split; [|eapply reducer_update; eauto].
    + reflexivity.
    + by apply bool_decide_eq_true in Hp.
    + intros other Hin. pose proof (Hbefore other Hin) as Hq.
      by apply bool_decide_eq_false in Hq.
Qed.

(** ** The two copies stay consistent *)

Lemma dispatch_consistent (state : list Todo) (w : World) (action : Action) :
  consistent state w →
  ∃ next w', dispatch action state w = Some (next, w') ∧ consistent next w'.
Proof.
  intros Hcons. unfold dispatch.
  destruct (reducer_cases state _ w action Hcons)
    as [H | [(newTodo & _ & H) | [H | (before & todo & after & updated & _ & _ & H)]]];
    rewrite H; eexists _, _; (split; [reflexivity|]);
    first [ exact Hcons | apply consistent_write ].
Qed.

Lemma initialState_consistent (w w0 : World) (state0 : list Todo) :
  initialState w = Some (state0, w0) → w0 = w ∧ consistent state0 w.
Proof.
  unfold initialState. rewrite readTodos_persisted.
  destruct (persisted w) as [todos|] eqn:Hp; [|done].
  intros [= <- <-]. split; [done|].
  unfold consistent. by rewrite (persisted_stored _ _ Hp).
Qed.

Lemma dispatchAll_consistent (actions : list Action) (state : list Todo)
      (w : World) :
  consistent state w →
  ∃ final w', dispatchAll actions state w = Some (final, w')
              ∧ consistent final w'.
Proof.
  revert state w. induction actions as [|action actions IH]; intros state w Hc.
  - by exists state, w.
  - destruct (dispatch_consistent state w action Hc) as (next & w1 & Hd & Hc1).
    destruct (IH next w1 Hc1) as (final & w' & Hrun & Hc').
    exists final, w'. split; [|done].
    cbn [dispatchAll]. unfold mbind, M_bind. by rewrite Hd.
Qed.

(** ** Ids stay unique *)

Lemma ids_app (l1 l2 : list Todo) : ids (l1 ++ l2) = ids l1 ++ ids l2.
Proof. apply fmap_app. Qed.

Lemma ids_filter_sublist (P : Todo → Prop) `{∀ x, Decision (P x)}
      (todos : list Todo) :
  ids (filter P todos) `sublist_of` ids todos.
Proof. apply fmap_sublist, sublist_filter. Qed.

Lemma dispatch_unique (state : list Todo) (w : World) (action : Action) :
  unique_inv state w →
  ∃ next w', dispatch action state w = Some (next, w') ∧ unique_inv next w'.
Proof.
  intros (Hcons & Hnodup & Hdist & Hfresh). unfold dispatch.
  destruct (reducer_cases state _ w action Hcons)
    as [H | [(newTodo & Hid & H) | [H | (before & todo & after & updated & Heq & Hid & H)]]];
    rewrite H; eexists _, _; (split; [reflexivity|]).
  - done.
  - split; [apply consistent_write|].
    split; [|split].
    + rewrite ids_app. apply NoDup_app. split; [done|]. split.
      * intros x Hx Hx'. apply list_elem_of_singleton in Hx'. subst x.
        cbn in Hx. rewrite Hid in Hx. by apply (Hfresh (drawn w)).
      * apply NoDup_singleton.
    + intros m n Hm Hn. cbn in Hm, Hn. apply Hdist; lia.
    + intros n Hn Hin. cbn in Hn. rewrite ids_app in Hin.
      apply elem_of_app in Hin as [Hin|Hin].
      * apply (Hfresh n); [lia|done].
      * apply list_elem_of_singleton in Hin. cbn in Hin. rewrite Hid in Hin.
        apply Hdist in Hin; lia.
  - cbv zeta.
    match goal with |- unique_inv (filter ?P _) _ =>
      pose proof (ids_filter_sublist P (JSON.stored state)) as Hsub end.
    rewrite ids_stored in Hsub.
    split; [apply consistent_write|].
    split; [by eapply sublist_NoDup|]. split; [done|].
    intros n Hn Hin. eapply Hfresh; [exact Hn|].
    eapply elem_of_sublist; eauto.
  - assert (ids (before ++ updated :: after) = ids state) as Hids.
    { rewrite <- (ids_stored state), Heq. unfold ids.
      rewrite !fmap_app, !fmap_cons. by rewrite Hid. }
    split; [apply consistent_write|].
    split; [by rewrite Hids|]. split; [done|].
    intros n Hn. rewrite Hids. by apply Hfresh.
Qed.

Lemma dispatchAll_unique (actions : list Action) (state : list Todo) (w : World) :
  unique_inv state w →
  ∃ final w', dispatchAll actions state w = Some (final, w')
              ∧ unique_inv final w'.
Proof.
  revert state w. induction actions as [|action actions IH]; intros state w Hinv.
  - by exists state, w.
  - destruct (dispatch_unique state w action Hinv) as (next & w1 & Hd & Hinv1).
    destruct (IH next w1 Hinv1) as (final & w' & Hrun & Hinv').
    exists final, w'. split; [|done].
    cbn [dispatchAll]. unfold mbind, M_bind. by rewrite Hd.
Qed.

(** ** White space *)

Lemma trimStart_all_space (s : string) : all_space s = true → trimStart s = "".
Proof.
  induction s as [|c s IH]; [done|]. cbn [all_space trimStart].
  intros [Hc Hs]%andb_true_iff. rewrite Hc. by apply IH.
Qed.

Lemma trim_all_space (s : string) : all_space s = true → trim s = "".
Proof. intros H. unfold trim. by rewrite trimStart_all_space. Qed.

(** ** The sample id generator *)

Lemma tally_length (n : nat) : String.length (Sample.tally n) = n.
Proof. induction n as [|n IH]; [done|]. cbn. by rewrite IH. Qed.

Lemma sampleUuids_inj (m n : nat) :
  Sample.sampleUuids m = Sample.sampleUuids n → m = n.
Proof.
  intros H. apply (f_equal String.length) in H. cbn in H.
  rewrite !tally_length in H. lia.
Qed.

Lemma sampleUuids_distinct (storage : gmap string string) (c : nat → Z)
      (ticks drawn : nat) :
  uuids_distinct (mkWorld storage c ticks Sample.sampleUuids drawn).
Proof. intros m n _ _. apply sampleUuids_inj. Qed.

(** ** Finding a record by id *)

Lemma first_with_id (id : string) (todos : list Todo) :
  id ∈ ids todos →
  ∃ before todo after,
    todos = before ++ todo :: after ∧ Todo.id todo = id ∧ id ∉ ids before.
Proof.
  induction todos as [|x todos IH]; [by intros ?%elem_of_nil|].
  intros Hin. destruct (decide (Todo.id x = id)) as [Hx|Hx].
  - exists [], x, todos. repeat split; [done|]. by intros ?%elem_of_nil.
  - unfold ids in Hin. rewrite fmap_cons in Hin.
    apply elem_of_cons in Hin as [Hin|Hin]; [congruence|].
    destruct (IH Hin) as (before & todo & after & -> & Hid & Hbefore).
    exists (x :: before), todo, after. repeat split; [done|].
    unfold ids. rewrite fmap_cons. intros [?|?]%elem_of_cons; [congruence|done].
Qed.

Lemma not_in_ids (id : string) (todos : list Todo) :
  id ∉ ids todos ↔ ∀ todo, todo ∈ todos → Some (Todo.id todo) ≠ Some id.
Proof.
  split.
  - intros Hnot todo Hin [= Heq]. apply Hnot. rewrite <- Heq.
    by apply list_elem_of_fmap_2.
  - intros H (todo & -> & Hin)%list_elem_of_fmap. by apply (H todo).
Qed.

(** ** Filtering *)

Lemma filter_all {A : Type} (P : A → Prop) `{∀ x, Decision (P x)} (l : list A) :
  (∀ x, x ∈ l → P x) → filter P l = l.
Proof.
  induction l as [|x l IH]; [done|]. intros Hall.
  rewrite filter_cons_True by (apply Hall; left).
  f_equal. apply IH. intros y Hy. apply Hall. by right.
Qed.

Lemma stored_fixed (todos : list Todo) :
  JSON.stored todos = todos ↔ ∀ todo, todo ∈ todos → JSON.stored_todo todo = todo.
Proof.
  unfold JSON.stored. induction todos as [|x todos IH]; cbn [fmap list_fmap].
  - split; [intros _ ? ?%elem_of_nil; done | done].
  - split.
    + intros [= Hx Hrest] todo [-> | Hin]%elem_of_cons; [done|].
      by apply IH.
    + intros Hall. f_equal; [apply Hall; left|].
      apply IH. intros todo Hin. apply Hall. by right.
Qed.

Lemma stored_filter (P : Todo → Prop) `{∀ x, Decision (P x)} (todos : list Todo) :
  JSON.stored todos = todos →
  JSON.stored (filter P todos) = filter P todos.
Proof.
  intros Hfix. apply stored_fixed. intros todo [_ Hin]%list_elem_of_filter.
  by apply (proj1 (stored_fixed todos) Hfix).
Qed.

Lemma stockedWorld_fresh :
  uuids_fresh Sample.stockedWorld [Sample.milkStored; Sample.eggsStored].
Proof.
  intros n Hn Hin. cbn in Hn. destruct n as [|n]; [lia|].
  cbn in Hin. apply elem_of_cons in Hin as [Hin | Hin]; [discriminate|].
  apply list_elem_of_singleton in Hin. discriminate.
Qed.

(** * The claims *)

(** C1.  From a first in-memory list read out of the store, after any
    sequence of dispatches the in-memory list and the persisted one are
    consistent; and any mutating action dispatched next (CREATE with
    non-empty content, DELETE, UPDATE of an id that is there) returns a list
    whose serialisation is, byte for byte, the text it has just put in the
    store, so that the two copies are consistent again. *)
Theorem C1_write_through (actions : list Action) (w w0 : World)
        (state0 : list Todo) :
  initialState w = Some (state0, w0) →
  ∃ state w',
    dispatchAll actions state0 w0 = Some (state, w')
    ∧ consistent state w'
    ∧ ∀ action, Mutating (JSON.stored state) action →
        ∃ next w'',
          dispatch action state w' = Some (next, w'')
          ∧ localStorage w'' !! todosKey = Some (JSON.stringify next)
          ∧ consistent next w''.
Proof.
  intros [-> Hcons]%initialState_consistent.
  destruct (dispatchAll_consistent actions state0 w Hcons)
    as (state & w' & Hrun & Hc).
  exists state, w'. split; [done|]. split; [done|].
  intros action Hmut. unfold dispatch.
  destruct Hmut as [data content Hcontent Hne | data | data id Hid Hin].
  - rewrite (reducer_create _ _ _ Hc _ _ Hcontent Hne). cbv zeta.
    eexists _, _. split; [reflexivity|]. split; [|apply consistent_write].
    cbn. apply lookup_insert_eq.
  - rewrite (reducer_delete _ _ _ Hc) by done. cbv zeta.
    eexists _, _. split; [reflexivity|]. split; [|apply consistent_write].
    cbn. apply lookup_insert_eq.
  - destruct (first_with_id id _ Hin)
      as (before & todo & after & Heq & Htodo & Hbefore).
    rewrite (reducer_update _ _ _ Hc _ before after todo); try done.
    + cbv zeta. eexists _, _. split; [reflexivity|].
      split; [|apply consistent_write]. cbn. apply lookup_insert_eq.
    + cbn. by rewrite Hid, Htodo.
    + cbn. rewrite Hid. by apply not_in_ids.
Qed.

Lemma C1_write_through_witness :
  ∃ state w',
    dispatchAll [createAction "Buy milk"; Sample.toggle "u" true;
                 Sample.delete "v"]
                [Sample.milkStored; Sample.eggsStored]
                Sample.stockedWorld = Some (state, w')
    ∧ consistent state w'
    ∧ ∀ action, Mutating (JSON.stored state) action →
        ∃ next w'',
          dispatch action state w' = Some (next, w'')
          ∧ localStorage w'' !! todosKey = Some (JSON.stringify next)
          ∧ consistent next w''.
Proof.
  apply (C1_write_through _ Sample.stockedWorld). vm_compute. reflexivity.
Defined.

(** C2.  What [JSON.parse] gives back for the text [JSON.stringify] wrote
    is the list with the same ids, contents and flags in the same order, each
    date replaced by the string written for it.  At the list a CREATE has
    just made, whose record holds two [Date] objects, that is not the list
    that went in. *)
Theorem C2_dates_come_back_as_strings :
  (∀ todos, JSON.parse (JSON.stringify todos) = Some (JSON.stored todos))
  ∧ fst <$> todoReducer [] (createAction "Buy milk") Sample.freshWorld
    = Some [Sample.milk]
  ∧ JSON.stored [Sample.milk] = [Sample.milkStored]
  ∧ [Sample.milkStored] ≠ [Sample.milk].
Proof.
  split; [apply parse_stringify|].
  repeat split; [vm_compute; reflexivity .. | discriminate].
Qed.

(** C3, amended.  On a readable store, CREATE with non-empty content
    returns the current list followed by exactly one new record: its id is
    the one the generator gives, its content the one asked for, its flag
    false, its [dateCreated] and [lastModified] two successive readings of
    the clock, equal when the clock did not advance in between; the id
    differs from every id of the current list as long as the generator gives
    ids the list does not use; the text written is that of the returned
    list. *)
Theorem C3_create_appends_one (state todos : list Todo) (w : World)
        (data : Partial.t) (content : string) :
  persisted w = Some todos →
  Partial.content data = Some content →
  content ≠ "" →
  ∃ newTodo w',
    todoReducer state (Action.mk (Some data) TodoAction.CREATE) w
    = Some (state ++ [newTodo], w')
    ∧ Todo.id newTodo = uuids w (drawn w)
    ∧ Todo.content newTodo = content
    ∧ Todo.isDone newTodo = false
    ∧ Todo.dateCreated newTodo = DateObj (clock w (ticks w))
    ∧ Todo.lastModified newTodo = DateObj (clock w (S (ticks w)))
    ∧ (clock w (ticks w) = clock w (S (ticks w)) →
       Todo.dateCreated newTodo = Todo.lastModified newTodo)
    ∧ (uuids_fresh w state → Todo.id newTodo ∉ ids state)
    ∧ localStorage w' !! todosKey = Some (JSON.stringify (state ++ [newTodo])).
Proof.
  intros Hstore Hcontent Hne.
  rewrite (reducer_create _ _ _ Hstore _ _ Hcontent Hne). cbv zeta.
  eexists _, _. split; [reflexivity|]. cbn [Todo.id Todo.content Todo.isDone
    Todo.dateCreated Todo.lastModified].
  repeat split.
  - by intros ->.
  - intros Hfresh. by apply Hfresh.
  - cbn. apply lookup_insert_eq.
Qed.

Lemma C3_create_appends_one_witness :
  ∃ newTodo w',
    todoReducer [Sample.milkStored; Sample.eggsStored]
                (Action.mk (Some (Partial.mk None (Some "Bread") None None None))
                           TodoAction.CREATE)
                Sample.stockedWorld
    = Some ([Sample.milkStored; Sample.eggsStored] ++ [newTodo], w')
    ∧ Todo.id newTodo = uuids Sample.stockedWorld (drawn Sample.stockedWorld)
    ∧ Todo.content newTodo = "Bread"
    ∧ Todo.isDone newTodo = false
    ∧ Todo.dateCreated newTodo
      = DateObj (clock Sample.stockedWorld (ticks Sample.stockedWorld))
    ∧ Todo.lastModified newTodo
      = DateObj (clock Sample.stockedWorld (S (ticks Sample.stockedWorld)))
    ∧ (clock Sample.stockedWorld (ticks Sample.stockedWorld)
       = clock Sample.stockedWorld (S (ticks Sample.stockedWorld)) →
       Todo.dateCreated newTodo = Todo.lastModified newTodo)
    ∧ (uuids_fresh Sample.stockedWorld
                   [Sample.milkStored; Sample.eggsStored] →
       Todo.id newTodo ∉ ids [Sample.milkStored; Sample.eggsStored])
    ∧ localStorage w' !! todosKey
      = Some (JSON.stringify
                ([Sample.milkStored; Sample.eggsStored] ++ [newTodo])).
Proof.
  apply (C3_create_appends_one _ [Sample.milkStored; Sample.eggsStored]);
    [vm_compute; reflexivity | reflexivity | discriminate].
Defined.

(** C3, as stated, fails: the clock ticks between the two [new Date()] of a
    CREATE, and the record made has a [lastModified] that is not its
    [dateCreated]. *)
Lemma C3_counterexample :
  fst <$> todoReducer [] (createAction "Buy milk") Sample.freshWorld
  = Some [Sample.milk]
  ∧ Todo.dateCreated Sample.milk ≠ Todo.lastModified Sample.milk.
Proof. split; [vm_compute; reflexivity | discriminate]. Qed.

(** C4, amended.  On a readable store, a CREATE action whose content is
    empty or absent returns the current list and leaves the world, the store
    included, as it was.  Text that is only white space does not reach the
    reducer: [handleSubmit] trims it and, nothing being left, dispatches
    nothing and writes nothing. *)
Theorem C4_create_without_content (state todos : list Todo) (w : World) :
  persisted w = Some todos →
  (∀ action,
     Action.type action = TodoAction.CREATE →
     Partial.content (Action.payload action) = None
     ∨ Partial.content (Action.payload action) = Some "" →
     todoReducer state action w = Some (state, w))
  ∧ (∀ value w2,
       all_space value = true →
       handleSubmit (Some value) state w2 = Some ((state, Some value), w2)).
Proof.
  intros Hstore. split.
  - intros action Htype Hcontent. by eapply reducer_create_nothing.
  - intros value w2 Hspace. unfold handleSubmit.
    by rewrite (trim_all_space _ Hspace).
Qed.

Lemma C4_create_without_content_witness :
  (∀ action,
     Action.type action = TodoAction.CREATE →
     Partial.content (Action.payload action) = None
     ∨ Partial.content (Action.payload action) = Some "" →
     todoReducer [Sample.milkStored; Sample.eggsStored] action
                 Sample.stockedWorld
     = Some ([Sample.milkStored; Sample.eggsStored], Sample.stockedWorld))
  ∧ (∀ value w2,
       all_space value = true →
       handleSubmit (Some value) [Sample.milkStored; Sample.eggsStored] w2
       = Some (([Sample.milkStored; Sample.eggsStored], Some value), w2)).
Proof.
  apply (C4_create_without_content _ [Sample.milkStored; Sample.eggsStored]).
  vm_compute. reflexivity.
Defined.

(** C4, as stated, fails: a CREATE action whose content is one space is
    not a no-op for the reducer, which appends a record and writes the
    store. *)
Lemma C4_counterexample :
  all_space " " = true
  ∧ fst <$> todoReducer [] (createAction " ") Sample.freshWorld
    = Some [Sample.blank]
  ∧ (localStorage ∘ snd <$> todoReducer [] (createAction " ") Sample.freshWorld)
    ≠ Some (localStorage Sample.freshWorld).
Proof.
  split; [reflexivity|]. split; [vm_compute; reflexivity|].
  intros H. apply (f_equal (fmap (λ m : gmap string string, m !! todosKey))) in H.
  vm_compute in H. discriminate.
Qed.

(** C5, amended.  On a persisted list that has a record with the given
    id, UPDATE changes the first such record and nothing else: its content
    is replaced when, and only when, a non-empty content is given; its flag
    when, and only when, a flag is given; its id and [dateCreated] stay;
    its [lastModified] becomes the reading of the clock, whichever fields
    were given.  That reading is later than the instant of the previous
    [lastModified] exactly when the clock has gone past it.  The list is
    written and returned. *)
Theorem C5_update_applies_fields (state todos : list Todo) (w : World)
        (action : Action) (id : string) :
  persisted w = Some todos →
  Action.type action = TodoAction.UPDATE →
  Partial.id (Action.payload action) = Some id →
  id ∈ ids todos →
  ∃ before todo after updated w',
    todos = before ++ todo :: after
    ∧ Todo.id todo = id
    ∧ (id ∉ ids before)
    ∧ todoReducer state action w = Some (before ++ updated :: after, w')
    ∧ localStorage w' !! todosKey
      = Some (JSON.stringify (before ++ updated :: after))
    ∧ Todo.id updated = id
    ∧ Todo.dateCreated updated = Todo.dateCreated todo
    ∧ (∀ content, Partial.content (Action.payload action) = Some content →
                  content ≠ "" → Todo.content updated = content)
    ∧ (Partial.content (Action.payload action) = None
       ∨ Partial.content (Action.payload action) = Some "" →
       Todo.content updated = Todo.content todo)
    ∧ (∀ isDone, Partial.isDone (Action.payload action) = Some isDone →
                 Todo.isDone updated = isDone)
    ∧ (Partial.isDone (Action.payload action) = None →
       Todo.isDone updated = Todo.isDone todo)
    ∧ Todo.lastModified updated = DateObj (clock w (ticks w))
    ∧ (∀ previous, JsDate.time (Todo.lastModified todo) = Some previous →
         (JsDate.later (Todo.lastModified updated) (Todo.lastModified todo)
          ↔ previous < clock w (ticks w))).
Proof.
  intros Hstore Htype Hid Hin.
  destruct (first_with_id id _ Hin)
    as (before & todo & after & Heq & Htodo & Hbefore).
  exists before, todo, after.
  rewrite (reducer_update _ _ _ Hstore _ before after todo Htype Heq).
  2:{ by rewrite Hid, Htodo. }
  2:{ rewrite Hid. by apply not_in_ids. }
  cbv zeta. eexists _, _.
  cbn [Todo.id Todo.content Todo.isDone Todo.dateCreated Todo.lastModified].
  split; [done|]. split; [done|]. split; [done|]. split; [reflexivity|].
  split; [cbn; apply lookup_insert_eq|].
  split; [done|]. split; [done|].
  split; [intros content -> Hne; by destruct content|].
  split; [by intros [-> | ->]|].
  split; [by intros isDone ->|].
  split; [by intros ->|].
  split; [done|].
  intros previous Hprev. unfold JsDate.later. rewrite Hprev. reflexivity.
Qed.

Lemma C5_update_applies_fields_witness :
  ∃ before todo after updated w',
    [Sample.milkStored; Sample.eggsStored] = before ++ todo :: after
    ∧ Todo.id todo = "v"
    ∧ ("v" ∉ ids before)
    ∧ todoReducer [Sample.milk; Sample.eggsStored] (Sample.toggle "v" false)
                  Sample.stockedWorld
      = Some (before ++ updated :: after, w')
    ∧ localStorage w' !! todosKey
      = Some (JSON.stringify (before ++ updated :: after))
    ∧ Todo.id updated = "v"
    ∧ Todo.dateCreated updated = Todo.dateCreated todo
    ∧ (∀ content,
         Partial.content (Action.payload (Sample.toggle "v" false))
         = Some content →
         content ≠ "" → Todo.content updated = content)
    ∧ (Partial.content (Action.payload (Sample.toggle "v" false)) = None
       ∨ Partial.content (Action.payload (Sample.toggle "v" false)) = Some "" →
       Todo.content updated = Todo.content todo)
    ∧ (∀ isDone,
         Partial.isDone (Action.payload (Sample.toggle "v" false))
         = Some isDone →
         Todo.isDone updated = isDone)
    ∧ (Partial.isDone (Action.payload (Sample.toggle "v" false)) = None →
       Todo.isDone updated = Todo.isDone todo)
    ∧ Todo.lastModified updated
      = DateObj (clock Sample.stockedWorld (ticks Sample.stockedWorld))
    ∧ (∀ previous, JsDate.time (Todo.lastModified todo) = Some previous →
         (JsDate.later (Todo.lastModified updated) (Todo.lastModified todo)
          ↔ previous < clock Sample.stockedWorld (ticks Sample.stockedWorld))).
Proof.
  apply (C5_update_applies_fields
           [Sample.milk; Sample.eggsStored]
           [Sample.milkStored; Sample.eggsStored]
           Sample.stockedWorld (Sample.toggle "v" false) "v");
    [vm_compute; reflexivity | reflexivity | reflexivity |].
  unfold ids. cbn. apply elem_of_cons. right. apply list_elem_of_here.
Defined.

(** C5, as stated, fails: a record is made and then updated within the
    same millisecond; the update gives it the clock's reading as
    [lastModified], which is not later than the one it had. *)
Lemma C5_counterexample :
  snd <$> todoReducer [] (createAction "Buy milk") Sample.frozenWorld
  = Some Sample.frozenStockedWorld
  ∧ persisted Sample.frozenStockedWorld = Some [Sample.milkFrozenStored]
  ∧ fst <$> todoReducer [Sample.milkFrozen] (Sample.toggle "u" true)
                        Sample.frozenStockedWorld
    = Some [Todo.mk "u" "Buy milk" true
                    (Todo.dateCreated Sample.milkFrozenStored) (DateObj 1000)]
  ∧ ¬ JsDate.later (DateObj 1000) (Todo.lastModified Sample.milkFrozenStored).
Proof.
  split; [vm_compute; reflexivity|].
  split; [vm_compute; reflexivity|].
  split; [vm_compute; reflexivity|].
  vm_compute. intros H. discriminate H.
Qed.

(** C6.  On a persisted list none of whose records has the id of the
    action (an absent id included), UPDATE returns the in-memory list it was
    given, not the list read from the store, leaves the world as it was and
    raises nothing. *)
Theorem C6_update_unknown_id (state todos : list Todo) (w : World)
        (action : Action) :
  persisted w = Some todos →
  Action.type action = TodoAction.UPDATE →
  (∀ todo, todo ∈ todos →
           Some (Todo.id todo) ≠ Partial.id (Action.payload action)) →
  todoReducer state action w = Some (state, w).
Proof. intros Hstore Htype Habsent. by eapply reducer_update_absent. Qed.

Lemma C6_update_unknown_id_witness :
  todoReducer [Sample.milk; Sample.eggsStored] (Sample.toggle "zz" true)
              Sample.stockedWorld
  = Some ([Sample.milk; Sample.eggsStored], Sample.stockedWorld).
Proof.
  apply (C6_update_unknown_id _ [Sample.milkStored; Sample.eggsStored]);
    [vm_compute; reflexivity | reflexivity |].
  intros todo Hin. cbn.
  apply elem_of_cons in Hin as [-> | Hin]; [discriminate|].
  apply list_elem_of_singleton in Hin as ->. discriminate.
Defined.

(** C7.  On a persisted list with exactly one record of the given id,
    DELETE returns, and writes, that list without the record: the records
    before it and the records after it, unchanged and in order.  (When the
    two copies are consistent, the persisted list is the in-memory one in
    its stored form.) *)
Theorem C7_delete_removes_one (state before after : list Todo) (todo : Todo)
        (w : World) (action : Action) :
  persisted w = Some (before ++ todo :: after) →
  Action.type action = TodoAction.DELETE →
  Partial.id (Action.payload action) = Some (Todo.id todo) →
  Todo.id todo ∉ ids before →
  Todo.id todo ∉ ids after →
  todoReducer state action w
  = Some (before ++ after,
          write todosKey (JSON.stringify (before ++ after)) w)
  ∧ (consistent state w → JSON.stored state = before ++ todo :: after).
Proof.
  intros Hstore Htype Hid Hbefore Hafter.
  split; [|unfold consistent; rewrite Hstore; by intros [= ->]].
  rewrite (reducer_delete _ _ _ Hstore _ Htype). cbv zeta. rewrite Hid.
  assert (filter (λ other, Some (Todo.id other) ≠ Some (Todo.id todo))
                 (before ++ todo :: after) = before ++ after) as ->; [|done].
  rewrite filter_app, filter_cons_False by (by intros H).
  f_equal; apply filter_all; intros other Hin.
  - exact (proj1 (not_in_ids _ _) Hbefore other Hin).
  - exact (proj1 (not_in_ids _ _) Hafter other Hin).
Qed.

Lemma C7_delete_removes_one_witness :
  todoReducer [Sample.milk; Sample.eggsStored] (Sample.delete "u")
              Sample.stockedWorld
  = Some ([] ++ [Sample.eggsStored],
          write todosKey (JSON.stringify ([] ++ [Sample.eggsStored]))
                Sample.stockedWorld)
  ∧ (consistent [Sample.milk; Sample.eggsStored] Sample.stockedWorld →
     JSON.stored [Sample.milk; Sample.eggsStored]
     = [] ++ Sample.milkStored :: [Sample.eggsStored]).
Proof.
  apply (C7_delete_removes_one _ [] [Sample.eggsStored] Sample.milkStored);
    [vm_compute; reflexivity | reflexivity | reflexivity | |].
  - by intros ?%elem_of_nil.
  - intros Hin. apply list_elem_of_singleton in Hin. discriminate.
Defined.

(** C8.  On a persisted list none of whose records has the id of the
    action, DELETE returns that list, the same records in the same order,
    raises nothing, and the store still holds it.  (When the two copies are
    consistent, that list is the in-memory one in its stored form.) *)
Theorem C8_delete_unknown_id (state todos : list Todo) (w : World)
        (action : Action) :
  persisted w = Some todos →
  Action.type action = TodoAction.DELETE →
  (∀ todo, todo ∈ todos →
           Some (Todo.id todo) ≠ Partial.id (Action.payload action)) →
  ∃ w', todoReducer state action w = Some (todos, w')
        ∧ persisted w' = Some todos
        ∧ (consistent state w → todos = JSON.stored state).
Proof.
  intros Hstore Htype Habsent.
  rewrite (reducer_delete _ _ _ Hstore _ Htype). cbv zeta.
  rewrite filter_all by done.
  eexists. split; [reflexivity|]. split.
  - rewrite persisted_write. by rewrite (persisted_stored _ _ Hstore).
  - unfold consistent. rewrite Hstore. by intros [= ->].
Qed.

Lemma C8_delete_unknown_id_witness :
  ∃ w', todoReducer [Sample.milk; Sample.eggsStored] (Sample.delete "zz")
                    Sample.stockedWorld
        = Some ([Sample.milkStored; Sample.eggsStored], w')
        ∧ persisted w' = Some [Sample.milkStored; Sample.eggsStored]
        ∧ (consistent [Sample.milk; Sample.eggsStored] Sample.stockedWorld →
           [Sample.milkStored; Sample.eggsStored]
           = JSON.stored [Sample.milk; Sample.eggsStored]).
Proof.
  apply (C8_delete_unknown_id _ [Sample.milkStored; Sample.eggsStored]);
    [vm_compute; reflexivity | reflexivity |].
  intros todo Hin. cbn.
  apply elem_of_cons in Hin as [-> | Hin]; [discriminate|].
  apply list_elem_of_singleton in Hin as ->. discriminate.
Defined.

(** C9.  Dispatching the same DELETE twice in a row gives the list, and
    leaves the world, that dispatching it once gives; and on a readable
    store DELETE does give a list. *)
Theorem C9_delete_idempotent (state : list Todo) (data : option Partial.t)
        (w : World) :
  (once ← dispatch (Action.mk data TodoAction.DELETE) state;
   dispatch (Action.mk data TodoAction.DELETE) once) w
  = dispatch (Action.mk data TodoAction.DELETE) state w
  ∧ (is_Some (persisted w) →
     is_Some (dispatch (Action.mk data TodoAction.DELETE) state w)).
Proof.
  unfold dispatch, mbind at 1, M_bind at 1.
  destruct (persisted w) as [todos|] eqn:Hstore.
  - rewrite (reducer_delete _ _ _ Hstore) by done. cbv zeta.
    split; [|by eexists].
    set (P := λ todo : Todo,
           Some (Todo.id todo)
           ≠ Partial.id (Action.payload (Action.mk data TodoAction.DELETE))).
    rewrite (reducer_delete _ (JSON.stored (filter P todos))) by
      (done || apply persisted_write).
    cbv zeta. fold P.
    rewrite (stored_filter P todos (persisted_stored _ _ Hstore)).
    rewrite list_filter_filter_l by done.
    f_equal. f_equal. unfold write. cbn. f_equal. apply insert_insert_eq.
  - rewrite (reducer_unreadable _ _ _ Hstore). split; [done|]. by intros [? ?].
Qed.

Lemma C9_delete_idempotent_witness :
  (once ← dispatch (Action.mk (Action.data (Sample.delete "u"))
                              TodoAction.DELETE)
                   [Sample.milk; Sample.eggsStored];
   dispatch (Action.mk (Action.data (Sample.delete "u")) TodoAction.DELETE)
            once) Sample.stockedWorld
  = dispatch (Action.mk (Action.data (Sample.delete "u")) TodoAction.DELETE)
             [Sample.milk; Sample.eggsStored] Sample.stockedWorld
  ∧ is_Some (dispatch (Action.mk (Action.data (Sample.delete "u"))
                                 TodoAction.DELETE)
                      [Sample.milk; Sample.eggsStored] Sample.stockedWorld).
Proof.
  destruct (C9_delete_idempotent [Sample.milk; Sample.eggsStored]
              (Action.data (Sample.delete "u")) Sample.stockedWorld)
    as [Hsame Hsome].
  split; [exact Hsame|]. apply Hsome. vm_compute. by eexists.
Defined.

(** C10.  From a store whose ids are pairwise distinct, with an id
    generator that neither repeats itself nor gives an id already in use,
    after any sequence of actions (CREATE, UPDATE, DELETE or any other tag)
    the ids are pairwise distinct in the in-memory list and in the store. *)
Theorem C10_ids_stay_unique (actions : list Action) (w w0 : World)
        (state0 : list Todo) :
  initialState w = Some (state0, w0) →
  NoDup (ids state0) →
  uuids_distinct w →
  uuids_fresh w state0 →
  ∃ state w',
    dispatchAll actions state0 w0 = Some (state, w')
    ∧ NoDup (ids state)
    ∧ ∃ todos, persisted w' = Some todos ∧ NoDup (ids todos).
Proof.
  intros [-> Hcons]%initialState_consistent Hnodup Hdist Hfresh.
  destruct (dispatchAll_unique actions state0 w)
    as (state & w' & Hrun & Hc & Hn & _ & _); [done|].
  exists state, w'. split; [done|]. split; [done|].
  exists (JSON.stored state). split; [done|]. by rewrite ids_stored.
Qed.

Lemma C10_ids_stay_unique_witness :
  ∃ state w',
    dispatchAll [createAction "Bread"; Sample.toggle "u" true;
                 Sample.delete "v"; createAction "Tea";
                 Action.mk None 7]
                [Sample.milkStored; Sample.eggsStored]
                Sample.stockedWorld = Some (state, w')
    ∧ NoDup (ids state)
    ∧ ∃ todos, persisted w' = Some todos ∧ NoDup (ids todos).
Proof.
  apply (C10_ids_stay_unique _ Sample.stockedWorld).
  - vm_compute. reflexivity.
  - apply (bool_decide_unpack _). vm_compute. reflexivity.
  - apply sampleUuids_distinct.
  - apply stockedWorld_fresh.
Defined.

(** * Further properties *)

(** ** Trimming *)

Lemma trimStart_empty (s : string) : trimStart s = "" → all_space s = true.
Proof.
  induction s as [|c s IH]; [done|]. cbn [trimStart all_space].
  destruct (Char.is_space c); [exact IH | done].
Qed.

Lemma all_space_trimStart (s : string) :
  all_space (trimStart s) = true → all_space s = true.
Proof.
  induction s as [|c s IH]; [done|]. cbn [trimStart].
  destruct (Char.is_space c) eqn:Hc; [|done].
  intros H. cbn [all_space]. by rewrite Hc, IH.
Qed.

Lemma trimEnd_empty (s : string) : trimEnd s = "" → all_space s = true.
Proof.
  induction s as [|c s IH]; [done|]. cbn [trimEnd all_space].
  destruct (trimEnd s) as [|d r]; [|done].
  destruct (Char.is_space c); [intros _; by apply IH | done].
Qed.

Lemma trim_empty (s : string) : trim s = "" ↔ all_space s = true.
Proof.
  split; [|apply trim_all_space].
  intros H. by apply all_space_trimStart, trimEnd_empty.
Qed.

Lemma trimEnd_idem (s : string) : trimEnd (trimEnd s) = trimEnd s.
Proof.
  induction s as [|c s IH]; [done|]. cbn [trimEnd].
  destruct (trimEnd s) as [|d r] eqn:Hend.
  - destruct (Char.is_space c) eqn:Hc; [done|]. cbn [trimEnd]. by rewrite Hc.
  - cbn [trimEnd]. cbn [trimEnd] in IH. by rewrite IH.
Qed.

Lemma trimStart_head (s : string) :
  trimStart s = "" ∨ ∃ c r, trimStart s = String c r ∧ Char.is_space c = false.
Proof.
  induction s as [|c s IH]; [by left|]. cbn [trimStart].
  destruct (Char.is_space c) eqn:Hc; [exact IH|]. right. by exists c, s.
Qed.

Lemma trimEnd_head (c : ascii) (r : string) :
  Char.is_space c = false → ∃ r', trimEnd (String c r) = String c r'.
Proof.
  intros Hc. cbn [trimEnd]. destruct (trimEnd r); rewrite ?Hc; eauto.
Qed.

(** Trimming what is trimmed changes nothing. *)
Lemma trim_idem (s : string) : trim (trim s) = trim s.
Proof.
  unfold trim. destruct (trimStart_head s) as [-> | (c & r & -> & Hc)]; [done|].
  destruct (trimEnd_head c r Hc) as [r' Hr']. rewrite Hr'.
  cbn [trimStart]. rewrite Hc, <- Hr'. apply trimEnd_idem.
Qed.

Lemma tidy_trim (s : string) : all_space s = false → tidy (trim s).
Proof.
  intros Hs. split; [|apply trim_idem].
  intros H%trim_empty. congruence.
Qed.

(** ** The reducer and the rest of the world *)

(** X1.  Whatever the action, a dispatch leaves every storage key other
    than the application's own as it was, never changes the answers the
    clock and the id generator have in store, reads the clock at most twice
    and draws at most one id. *)
Theorem reducer_frame (state next : list Todo) (action : Action) (w w' : World) :
  todoReducer state action w = Some (next, w') →
  (∀ key, key ≠ todosKey → localStorage w' !! key = localStorage w !! key)
  ∧ clock w' = clock w
  ∧ uuids w' = uuids w
  ∧ (ticks w ≤ ticks w' ≤ ticks w + 2)%nat
  ∧ (drawn w ≤ drawn w' ≤ drawn w + 1)%nat.
Proof.
  intros Hrun. destruct (persisted w) as [todos|] eqn:Hstore.
  2:{ by rewrite (reducer_unreadable _ _ _ Hstore) in Hrun. }
  destruct (reducer_cases state todos w action Hstore)
    as [H | [(newTodo & _ & H) | [H | (before & todo & after & updated & _ & _ & H)]]];
    rewrite H in Hrun; injection Hrun as <- <-; cbn;
    (split; [intros key Hkey; by rewrite ?lookup_insert_ne|]);
    repeat split; lia.
Qed.

Lemma reducer_frame_witness :
  (∀ key, key ≠ todosKey →
          localStorage (write todosKey (JSON.stringify [Sample.eggsStored])
                              Sample.stockedWorld) !! key
          = localStorage Sample.stockedWorld !! key)
  ∧ clock (write todosKey (JSON.stringify [Sample.eggsStored])
                 Sample.stockedWorld) = clock Sample.stockedWorld
  ∧ uuids (write todosKey (JSON.stringify [Sample.eggsStored])
                 Sample.stockedWorld) = uuids Sample.stockedWorld
  ∧ (ticks Sample.stockedWorld
     ≤ ticks (write todosKey (JSON.stringify [Sample.eggsStored])
                    Sample.stockedWorld)
     ≤ ticks Sample.stockedWorld + 2)%nat
  ∧ (drawn Sample.stockedWorld
     ≤ drawn (write todosKey (JSON.stringify [Sample.eggsStored])
                    Sample.stockedWorld)
     ≤ drawn Sample.stockedWorld + 1)%nat.
Proof.
  apply (reducer_frame [Sample.milk; Sample.eggsStored] [Sample.eggsStored]
           (Sample.delete "u")).
  vm_compute. reflexivity.
Defined.

Lemma filter_id_gone (id : string) (todos : list Todo) :
  id ∉ ids (filter (λ todo, Some (Todo.id todo) ≠ Some id) todos).
Proof.
  intros (todo & -> & [Hne _]%list_elem_of_filter)%list_elem_of_fmap.
  by apply Hne.
Qed.

Lemma filter_id_kept (id : string) (todos : list Todo) (todo : Todo) :
  todo ∈ todos → Todo.id todo ≠ id →
  todo ∈ filter (λ other, Some (Todo.id other) ≠ Some id) todos.
Proof.
  intros Hin Hne. apply list_elem_of_filter. split; [|done]. by intros [= ?].
Qed.

(** X2.  DELETE removes every record that has the id, however many there
    are: none is left in the list it returns, which is also the list the
    store then holds; the records with another id are all kept, in their
    order. *)
Theorem delete_removes_all (state todos : list Todo) (w : World)
        (action : Action) (id : string) :
  persisted w = Some todos →
  Action.type action = TodoAction.DELETE →
  Partial.id (Action.payload action) = Some id →
  ∃ next w',
    todoReducer state action w = Some (next, w')
    ∧ (id ∉ ids next)
    ∧ (next `sublist_of` todos)
    ∧ (∀ todo, todo ∈ todos → Todo.id todo ≠ id → todo ∈ next)
    ∧ persisted w' = Some next.
Proof.
  intros Hstore Htype Hid.
  rewrite (reducer_delete _ _ _ Hstore _ Htype). cbv zeta. rewrite Hid.
  eexists _, _. split; [reflexivity|]. split; [|split; [|split]].
  - apply filter_id_gone.
  - apply sublist_filter.
  - intros todo. apply filter_id_kept.
  - rewrite persisted_write. f_equal.
    apply stored_filter, (persisted_stored _ _ Hstore).
Qed.

(** X3.  DELETE, and UPDATE of an id the store has, do not look at the
    in-memory list: given the same world, any two in-memory lists lead to
    the same result. *)
Theorem delete_update_ignore_state (state1 state2 todos : list Todo)
        (w : World) (action : Action) :
  persisted w = Some todos →
  Action.type action = TodoAction.DELETE
  ∨ (Action.type action = TodoAction.UPDATE
     ∧ ∃ id, Partial.id (Action.payload action) = Some id ∧ id ∈ ids todos) →
  todoReducer state1 action w = todoReducer state2 action w.
Proof.
  intros Hstore [Htype | (Htype & id & Hid & Hin)].
  - by rewrite !(reducer_delete _ _ _ Hstore _ Htype).
  - destruct (first_with_id id _ Hin)
      as (before & todo & after & Heq & Htodo & Hbefore).
    assert (Some (Todo.id todo) = Partial.id (Action.payload action)) as H1
      by (by rewrite Hid, Htodo).
    assert (∀ other, other ∈ before →
              Some (Todo.id other) ≠ Partial.id (Action.payload action)) as H2
      by (rewrite Hid; by apply not_in_ids).
    by rewrite !(reducer_update _ _ _ Hstore _ before after todo Htype Heq H1 H2).
Qed.

Lemma delete_removes_all_witness :
  ∃ next w',
    todoReducer [Sample.milk; Sample.eggsStored] (Sample.delete "u")
                Sample.stockedWorld = Some (next, w')
    ∧ ("u" ∉ ids next)
    ∧ (next `sublist_of` [Sample.milkStored; Sample.eggsStored])
    ∧ (∀ todo, todo ∈ [Sample.milkStored; Sample.eggsStored] →
               Todo.id todo ≠ "u" → todo ∈ next)
    ∧ persisted w' = Some next.
Proof.
  apply (delete_removes_all _ [Sample.milkStored; Sample.eggsStored]);
    [vm_compute; reflexivity | reflexivity | reflexivity].
Defined.

Lemma delete_update_ignore_state_witness :
  todoReducer [] (Sample.toggle "v" false) Sample.stockedWorld
  = todoReducer [Sample.milk] (Sample.toggle "v" false) Sample.stockedWorld.
Proof.
  apply (delete_update_ignore_state _ _ [Sample.milkStored; Sample.eggsStored]);
    [vm_compute; reflexivity|].
  right. split; [reflexivity|]. exists "v". split; [reflexivity|].
  unfold ids. cbn. apply elem_of_cons. right. apply list_elem_of_here.
Defined.

(** X4.  CREATE looks at the in-memory list only: the store afterwards
    holds that list and the new record, so a record that was in the store
    but not in the in-memory list is in neither copy any more. *)
Theorem create_overwrites_store (state todos : list Todo) (w : World)
        (data : Partial.t) (content : string) :
  persisted w = Some todos →
  Partial.content data = Some content →
  content ≠ "" →
  ∃ newTodo w',
    todoReducer state (Action.mk (Some data) TodoAction.CREATE) w
    = Some (state ++ [newTodo], w')
    ∧ persisted w' = Some (JSON.stored (state ++ [newTodo]))
    ∧ ∀ lost, lost ∈ ids todos → lost ∉ ids state →
              lost ≠ Todo.id newTodo →
              (lost ∉ ids (state ++ [newTodo]))
              ∧ (lost ∉ ids (JSON.stored (state ++ [newTodo]))).
Proof.
  intros Hstore Hcontent Hne.
  rewrite (reducer_create _ _ _ Hstore _ _ Hcontent Hne). cbv zeta.
  eexists _, _. split; [reflexivity|]. split; [apply persisted_write|].
  intros lost _ Hstate Hnew. rewrite ids_stored. split; [|]; rewrite ids_app;
    intros [Hin | Hin%list_elem_of_singleton]%elem_of_app; done.
Qed.

Lemma create_overwrites_store_witness :
  ∃ newTodo w',
    todoReducer [Sample.eggsStored]
                (Action.mk (Some (Partial.mk None (Some "Bread") None None None))
                           TodoAction.CREATE)
                Sample.stockedWorld
    = Some ([Sample.eggsStored] ++ [newTodo], w')
    ∧ persisted w' = Some (JSON.stored ([Sample.eggsStored] ++ [newTodo]))
    ∧ ∀ lost, lost ∈ ids [Sample.milkStored; Sample.eggsStored] →
              lost ∉ ids [Sample.eggsStored] →
              lost ≠ Todo.id newTodo →
              (lost ∉ ids ([Sample.eggsStored] ++ [newTodo]))
              ∧ (lost ∉ ids (JSON.stored ([Sample.eggsStored] ++ [newTodo]))).
Proof.
  apply (create_overwrites_store _ [Sample.milkStored; Sample.eggsStored]
           _ _ "Bread");
    [vm_compute; reflexivity | reflexivity | discriminate].
Defined.

(** X5.  UPDATE never changes the number or the order of the records, nor
    any id or creation date: either it returns the in-memory list and leaves
    the world alone, or the list it returns has, place for place, the ids
    and the creation dates of the persisted list. *)
Theorem update_keeps_ids (state todos : list Todo) (w : World)
        (action : Action) :
  persisted w = Some todos →
  Action.type action = TodoAction.UPDATE →
  ∃ next w',
    todoReducer state action w = Some (next, w')
    ∧ ((next = state ∧ w' = w)
       ∨ (ids next = ids todos
          ∧ Todo.dateCreated <$> next = Todo.dateCreated <$> todos
          ∧ length next = length todos
          ∧ persisted w' = Some (JSON.stored next))).
Proof.
  intros Hstore Htype.
  destruct (Partial.id (Action.payload action)) as [id|] eqn:Hid.
  2:{ exists state, w. split; [|by left].
      apply (reducer_update_absent _ _ _ Hstore _ Htype).
      rewrite Hid. by intros. }
  destruct (decide (id ∈ ids todos)) as [Hin | Hnot].
  2:{ exists state, w. split; [|by left].
      apply (reducer_update_absent _ _ _ Hstore _ Htype).
      rewrite Hid. by apply not_in_ids. }
  destruct (first_with_id id _ Hin)
    as (before & todo & after & Heq & Htodo & Hbefore).
  rewrite (reducer_update _ _ _ Hstore _ before after todo Htype Heq).
  2:{ by rewrite Hid, Htodo. }
  2:{ rewrite Hid. by apply not_in_ids. }
  cbv zeta. eexists _, _. split; [reflexivity|]. right. subst todos.
  unfold ids. rewrite !fmap_app, !fmap_cons, !length_app. cbn.
  repeat split. apply persisted_write.
Qed.

Lemma update_keeps_ids_witness :
  ∃ next w',
    todoReducer [Sample.milk; Sample.eggsStored] (Sample.toggle "u" true)
                Sample.stockedWorld = Some (next, w')
    ∧ ((next = [Sample.milk; Sample.eggsStored] ∧ w' = Sample.stockedWorld)
       ∨ (ids next = ids [Sample.milkStored; Sample.eggsStored]
          ∧ Todo.dateCreated <$> next
            = Todo.dateCreated <$> [Sample.milkStored; Sample.eggsStored]
          ∧ length next = length [Sample.milkStored; Sample.eggsStored]
          ∧ persisted w' = Some (JSON.stored next))).
Proof.
  apply (update_keeps_ids _ [Sample.milkStored; Sample.eggsStored]);
    [vm_compute; reflexivity | reflexivity].
Defined.

(** ** Dispatches one after the other *)

Lemma stored_app (l1 l2 : list Todo) :
  JSON.stored (l1 ++ l2) = JSON.stored l1 ++ JSON.stored l2.
Proof. apply fmap_app. Qed.

(** X6.  A record that has just been created is removed by a DELETE of its
    id: from consistent copies and with a fresh id, CREATE followed by that
    DELETE returns the in-memory list as it was, in its stored form, and
    the store holds again the list it held before. *)
Theorem create_then_delete (state : list Todo) (w : World) (content : string) :
  consistent state w →
  content ≠ "" →
  uuids_fresh w state →
  ∃ w',
    (created ← dispatch (createAction content) state;
     dispatch (deleteAction (uuids w (drawn w))) created) w
    = Some (JSON.stored state, w')
    ∧ persisted w' = persisted w.
Proof.
  intros Hcons Hne Hfresh.
  assert (filter (λ todo, Some (Todo.id todo) ≠ Some (uuids w (drawn w)))
            (JSON.stored (state ++
               [Todo.mk (uuids w (drawn w)) content false
                        (DateObj (clock w (ticks w)))
                        (DateObj (clock w (S (ticks w))))]))
          = JSON.stored state) as Hfilter.
  { rewrite stored_app, filter_app.
    cbn [JSON.stored fmap list_fmap JSON.stored_todo Todo.id].
    rewrite filter_cons_False by (intros H; by apply H).
    rewrite filter_nil, app_nil_r. apply filter_all.
    intros todo Hin [= Hid]. apply (Hfresh (drawn w)); [done|].
    rewrite <- Hid, <- ids_stored. by apply list_elem_of_fmap_2. }
  eexists. split.
  - unfold dispatch, mbind at 1, M_bind at 1, createAction.
    rewrite (reducer_create _ _ _ Hcons
               (Partial.mk None (Some content) None None None) content
               eq_refl Hne).
    cbv beta iota zeta.
    erewrite reducer_delete; [|apply persisted_write|reflexivity].
    cbv zeta. cbn [deleteAction Action.payload Action.data from_option
                   Partial.id id].
    rewrite Hfilter. reflexivity.
  - rewrite persisted_write, Hcons. f_equal. apply stored_idem.
Qed.

Lemma create_then_delete_witness :
  ∃ w',
    (created ← dispatch (createAction "Bread") [Sample.milk; Sample.eggsStored];
     dispatch (deleteAction (uuids Sample.stockedWorld
                                   (drawn Sample.stockedWorld))) created)
      Sample.stockedWorld
    = Some (JSON.stored [Sample.milk; Sample.eggsStored], w')
    ∧ persisted w' = persisted Sample.stockedWorld.
Proof.
  apply (create_then_delete [Sample.milk; Sample.eggsStored]
           Sample.stockedWorld "Bread");
    [vm_compute; reflexivity | discriminate |].
  intros n Hn Hin. apply (stockedWorld_fresh n Hn). exact Hin.
Defined.

(** X7.  Two DELETEs can be dispatched in either order: the list returned
    and the world left are the same. *)
Theorem deletes_commute (state : list Todo) (data1 data2 : option Partial.t)
        (w : World) :
  (once ← dispatch (Action.mk data1 TodoAction.DELETE) state;
   dispatch (Action.mk data2 TodoAction.DELETE) once) w
  = (once ← dispatch (Action.mk data2 TodoAction.DELETE) state;
     dispatch (Action.mk data1 TodoAction.DELETE) once) w
  ∧ (is_Some (persisted w) →
     is_Some ((once ← dispatch (Action.mk data1 TodoAction.DELETE) state;
               dispatch (Action.mk data2 TodoAction.DELETE) once) w)).
Proof.
  unfold dispatch, mbind, M_bind.
  destruct (persisted w) as [todos|] eqn:Hstore.
  2:{ rewrite !(reducer_unreadable _ _ _ Hstore). split; [done|].
      by intros [? ?]. }
  pose proof (persisted_stored _ _ Hstore) as Hfix.
  rewrite !(reducer_delete _ _ _ Hstore) by done. cbv beta iota zeta.
  set (P1 := λ todo : Todo,
         Some (Todo.id todo)
         ≠ Partial.id (Action.payload (Action.mk data1 TodoAction.DELETE))).
  set (P2 := λ todo : Todo,
         Some (Todo.id todo)
         ≠ Partial.id (Action.payload (Action.mk data2 TodoAction.DELETE))).
  rewrite (reducer_delete _ (JSON.stored (filter P1 todos)))
    by (done || apply persisted_write).
  rewrite (reducer_delete _ (JSON.stored (filter P2 todos)))
    by (done || apply persisted_write).
  cbv zeta. fold P1 P2.
  rewrite !stored_filter by done.
  rewrite !list_filter_filter.
  rewrite (list_filter_iff (λ a, P2 a ∧ P1 a) (λ a, P1 a ∧ P2 a)) by tauto.
  split; [|by eexists].
  f_equal. f_equal. unfold write. cbn. f_equal.
  by rewrite !insert_insert_eq.
Qed.

Lemma deletes_commute_witness :
  (once ← dispatch (Action.mk (Action.data (Sample.delete "u"))
                              TodoAction.DELETE)
                   [Sample.milk; Sample.eggsStored];
   dispatch (Action.mk (Action.data (Sample.delete "v")) TodoAction.DELETE)
            once) Sample.stockedWorld
  = (once ← dispatch (Action.mk (Action.data (Sample.delete "v"))
                                TodoAction.DELETE)
                     [Sample.milk; Sample.eggsStored];
     dispatch (Action.mk (Action.data (Sample.delete "u")) TodoAction.DELETE)
              once) Sample.stockedWorld
  ∧ is_Some ((once ← dispatch (Action.mk (Action.data (Sample.delete "u"))
                                         TodoAction.DELETE)
                              [Sample.milk; Sample.eggsStored];
              dispatch (Action.mk (Action.data (Sample.delete "v"))
                                  TodoAction.DELETE) once)
               Sample.stockedWorld).
Proof.
  destruct (deletes_commute [Sample.milk; Sample.eggsStored]
              (Action.data (Sample.delete "u"))
              (Action.data (Sample.delete "v")) Sample.stockedWorld)
    as [Hsame Hsome].
  split; [exact Hsame|]. apply Hsome. vm_compute. by eexists.
Defined.

(** ** The handlers of the page *)

Lemma updateTodo_result (state todos : list Todo) (w : World) (id : string)
      (content : option string) (isDone : option bool) :
  persisted w = Some todos →
  ((id ∉ ids todos)
   ∧ updateTodo id (Partial.mk None content isDone None None) state w
     = Some (state, w))
  ∨ (∃ before todo after,
       todos = before ++ todo :: after
       ∧ Todo.id todo = id
       ∧ (id ∉ ids before)
       ∧ updateTodo id (Partial.mk None content isDone None None) state w
         = let updated :=
             Todo.mk (Todo.id todo) (updated_content content (Todo.content todo))
                     (default (Todo.isDone todo) isDone)
                     (Todo.dateCreated todo) (DateObj (clock w (ticks w))) in
           Some (before ++ updated :: after,
                 write todosKey (JSON.stringify (before ++ updated :: after))
                       (tick w))).
Proof.
  intros Hstore. unfold updateTodo, dispatch.
  destruct (decide (id ∈ ids todos)) as [Hin | Hnot].
  - right. destruct (first_with_id id _ Hin)
      as (before & todo & after & Heq & Htodo & Hbefore).
    exists before, todo, after. repeat split; try done.
    rewrite (reducer_update _ _ _ Hstore _ before after todo); try done.
    + cbn. by rewrite Htodo.
    + cbn. by apply not_in_ids.
  - left. split; [done|].
    apply (reducer_update_absent _ _ _ Hstore); [done|].
    cbn. by apply not_in_ids.
Qed.

Lemma tidy_stored (todos : list Todo) : all_tidy (JSON.stored todos) ↔ all_tidy todos.
Proof.
  unfold all_tidy, JSON.stored. split.
  - intros H todo Hin.
    apply (H (JSON.stored_todo todo)). by apply list_elem_of_fmap_2.
  - intros H ? (todo & -> & Hin)%list_elem_of_fmap. exact (H todo Hin).
Qed.

Lemma all_tidy_app (l1 l2 : list Todo) :
  all_tidy (l1 ++ l2) ↔ all_tidy l1 ∧ all_tidy l2.
Proof.
  unfold all_tidy. split.
  - intros H. split; intros todo Hin; apply H, elem_of_app; [by left | by right].
  - intros [H1 H2] todo [Hin | Hin]%elem_of_app; [by apply H1 | by apply H2].
Qed.

Lemma all_tidy_cons (todo : Todo) (l : list Todo) :
  all_tidy (todo :: l) ↔ tidy (Todo.content todo) ∧ all_tidy l.
Proof.
  unfold all_tidy. split.
  - intros H. split; [apply H; left|].
    intros other Hin. apply H. by right.
  - intros [H1 H2] other [-> | Hin]%elem_of_cons; [done | by apply H2].
Qed.

(** X8.  A submitted text that has a character other than white space
    makes one record, at the end of the list: its content is the text
    without the white space at its two ends, and is not empty; the field is
    emptied. *)
Theorem submit_creates_trimmed (state todos : list Todo) (w : World)
        (value : string) :
  persisted w = Some todos →
  all_space value = false →
  ∃ newTodo w',
    handleSubmit (Some value) state w
    = Some ((state ++ [newTodo], Some ""), w')
    ∧ Todo.content newTodo = trim value
    ∧ tidy (Todo.content newTodo)
    ∧ Todo.isDone newTodo = false
    ∧ persisted w' = Some (JSON.stored (state ++ [newTodo])).
Proof.
  intros Hstore Hspace. pose proof (tidy_trim _ Hspace) as [Hne Hidem].
  unfold handleSubmit. destruct (trim value) as [|c r] eqn:Htrim; [done|].
  unfold dispatch, createAction, mbind, M_bind.
  rewrite (reducer_create _ _ _ Hstore
             (Partial.mk None (Some (String c r)) None None None)
             (String c r) eq_refl Hne).
  cbv beta iota zeta. eexists _, _. split; [reflexivity|].
  cbn [Todo.content Todo.isDone]. repeat split; try done.
  apply persisted_write.
Qed.

Lemma submit_creates_trimmed_witness :
  ∃ newTodo w',
    handleSubmit (Some "  Bread ") [Sample.milk; Sample.eggsStored]
                 Sample.stockedWorld
    = Some (([Sample.milk; Sample.eggsStored] ++ [newTodo], Some ""), w')
    ∧ Todo.content newTodo = trim "  Bread "
    ∧ tidy (Todo.content newTodo)
    ∧ Todo.isDone newTodo = false
    ∧ persisted w'
      = Some (JSON.stored ([Sample.milk; Sample.eggsStored] ++ [newTodo])).
Proof.
  apply (submit_creates_trimmed _ [Sample.milkStored; Sample.eggsStored]);
    [vm_compute; reflexivity | reflexivity].
Defined.

Lemma dispatch_tidy (state : list Todo) (w : World) (action : Action) :
  consistent state w →
  all_tidy state →
  (∀ content, Partial.content (Action.payload action) = Some content →
              content ≠ "" → tidy content) →
  ∃ next w',
    dispatch action state w = Some (next, w')
    ∧ consistent next w'
    ∧ all_tidy next.
Proof.
  intros Hcons Htidy Hcontent. unfold dispatch.
  pose proof (proj2 (tidy_stored state) Htidy) as Hstored.
  destruct (decide (Action.type action = TodoAction.CREATE)) as [Hc|Hc].
  { destruct action as [[data|] type]; cbn in Hc; subst type.
    - destruct (Partial.content data) as [[|c content]|] eqn:Hdata.
      + exists state, w. split; [|done].
        eapply reducer_create_nothing; eauto.
      + rewrite (reducer_create _ _ _ Hcons _ _ Hdata) by done. cbv zeta.
        eexists _, _. split; [reflexivity|]. split; [apply consistent_write|].
        apply all_tidy_app. split; [done|]. apply all_tidy_cons.
        split; [|by intros ? ?%elem_of_nil]. cbn. by apply Hcontent.
      + exists state, w. split; [|done].
        eapply reducer_create_nothing; eauto.
    - exists state, w. split; [|done].
      eapply reducer_create_nothing; eauto. }
  destruct (decide (Action.type action = TodoAction.DELETE)) as [Hd|Hd].
  { rewrite (reducer_delete _ _ _ Hcons _ Hd). cbv zeta.
    eexists _, _. split; [reflexivity|]. split; [apply consistent_write|].
    intros todo [_ Hin]%list_elem_of_filter. by apply Hstored. }
  destruct (decide (Action.type action = TodoAction.UPDATE)) as [Hu|Hu].
  2:{ exists state, w. split; [|done]. by eapply reducer_other. }
  destruct (Partial.id (Action.payload action)) as [id|] eqn:Hid.
  2:{ exists state, w. split; [|done].
      apply (reducer_update_absent _ _ _ Hcons _ Hu). rewrite Hid. by intros. }
  destruct (decide (id ∈ ids (JSON.stored state))) as [Hin | Hnot].
  2:{ exists state, w. split; [|done].
      apply (reducer_update_absent _ _ _ Hcons _ Hu).
      rewrite Hid. by apply not_in_ids. }
  destruct (first_with_id id _ Hin)
    as (before & todo & after & Heq & Htodo & Hbefore).
  rewrite (reducer_update _ _ _ Hcons _ before after todo Hu Heq).
  2:{ by rewrite Hid, Htodo. }
  2:{ rewrite Hid. by apply not_in_ids. }
  cbv zeta. eexists _, _. split; [reflexivity|]. split; [apply consistent_write|].
  rewrite Heq in Hstored.
  apply all_tidy_app in Hstored as [Hb [Ht Ha]%all_tidy_cons].
  apply all_tidy_app. split; [done|]. apply all_tidy_cons. split; [|done].
  cbn [Todo.content].
  destruct (Partial.content (Action.payload action)) as [[|c content]|] eqn:Hc';
    cbn [updated_content]; try done.
  by apply Hcontent.
Qed.

(** X9.  What the handlers of the page keep: from consistent copies whose
    contents are all non-empty and free of white space at both ends, each
    handler - submitting, committing an edit by blur or by a key, clicking
    an item, answering the delete question - returns, leaves the copies
    consistent and leaves every content non-empty and free of white space at
    both ends. *)
Theorem handlers_keep_contents_tidy (state : list Todo) (w : World) :
  consistent state w →
  all_tidy state →
  (∀ input, ∃ next field w',
      handleSubmit input state w = Some ((next, field), w')
      ∧ consistent next w' ∧ all_tidy next)
  ∧ (∀ current todo, ∃ next p w',
        updateContent current todo state w = Some ((next, p), w')
        ∧ consistent next w' ∧ all_tidy next)
  ∧ (∀ key current todo, ∃ next p w',
        updateContentOnEnterKey key current todo state w = Some ((next, p), w')
        ∧ consistent next w' ∧ all_tidy next)
  ∧ (∀ current todo, ∃ next w',
        toggleIsDone current todo state w = Some (next, w')
        ∧ consistent next w' ∧ all_tidy next)
  ∧ (∀ answer todo, ∃ next w',
        confirmDelete answer todo state w = Some (next, w')
        ∧ consistent next w' ∧ all_tidy next).
Proof.
  intros Hcons Htidy.
  assert (∀ current todo, ∃ next p w',
            updateContent current todo state w = Some ((next, p), w')
            ∧ consistent next w' ∧ all_tidy next) as Hedit.
  { intros [p|] todo; [|by exists state, None, w].
    unfold updateContent.
    destruct (trim (default "" (Paragraph.textContent
                                  (Paragraph.set_contenteditable false p))))
      as [|c r] eqn:Htrim; [by eexists state, _, w|].
    destruct (dispatch_tidy state w
                (Action.mk
                   (Some (Partial.mk (Some (Todo.id todo)) (Some (String c r))
                                     None None None))
                   TodoAction.UPDATE) Hcons Htidy)
      as (next & w' & Hrun & Hc' & Ht').
    { cbn. intros content [= <-] _. rewrite <- Htrim.
      split; [by rewrite Htrim | apply trim_idem]. }
    unfold updateTodo, mbind, M_bind. cbn [Partial.id Partial.content
      Partial.isDone Partial.dateCreated Partial.lastModified from_option].
    rewrite Hrun. by eexists next, _, w'. }
  split; [|split; [exact Hedit|split; [|split]]].
  - intros [value|]; [|by exists state, None, w].
    unfold handleSubmit. destruct (trim value) as [|c r] eqn:Htrim;
      [by exists state, (Some value), w|].
    destruct (dispatch_tidy state w (createAction (String c r)) Hcons Htidy)
      as (next & w' & Hrun & Hc' & Ht').
    { cbn. intros content [= <-] _. rewrite <- Htrim.
      split; [by rewrite Htrim | apply trim_idem]. }
    unfold mbind, M_bind. rewrite Hrun. by exists next, (Some ""), w'.
  - intros key current todo. unfold updateContentOnEnterKey.
    destruct (String.eqb key "Enter"); [apply Hedit|].
    by exists state, current, w.
  - intros [p|] todo; [|by exists state, w]. unfold toggleIsDone.
    destruct (Paragraph.contenteditable p); [by exists state, w|].
    by apply dispatch_tidy.
  - intros [|] todo; [|by exists state, w]. unfold confirmDelete, deleteTodo.
    by apply dispatch_tidy.
Qed.

Lemma handlers_keep_contents_tidy_witness :
  (∀ input, ∃ next field w',
      handleSubmit input [Sample.milk; Sample.eggsStored] Sample.stockedWorld
      = Some ((next, field), w')
      ∧ consistent next w' ∧ all_tidy next)
  ∧ (∀ current todo, ∃ next p w',
        updateContent current todo [Sample.milk; Sample.eggsStored]
                      Sample.stockedWorld = Some ((next, p), w')
        ∧ consistent next w' ∧ all_tidy next)
  ∧ (∀ key current todo, ∃ next p w',
        updateContentOnEnterKey key current todo
          [Sample.milk; Sample.eggsStored] Sample.stockedWorld
        = Some ((next, p), w')
        ∧ consistent next w' ∧ all_tidy next)
  ∧ (∀ current todo, ∃ next w',
        toggleIsDone current todo [Sample.milk; Sample.eggsStored]
                     Sample.stockedWorld = Some (next, w')
        ∧ consistent next w' ∧ all_tidy next)
  ∧ (∀ answer todo, ∃ next w',
        confirmDelete answer todo [Sample.milk; Sample.eggsStored]
                      Sample.stockedWorld = Some (next, w')
        ∧ consistent next w' ∧ all_tidy next).
Proof.
  apply handlers_keep_contents_tidy; [vm_compute; reflexivity|].
  intros todo Hin.
  apply elem_of_cons in Hin as [-> | Hin]; [by vm_compute|].
  apply list_elem_of_singleton in Hin as ->. by vm_compute.
Defined.

(** X10.  While a paragraph is being edited a click on it is ignored; the
    commit that ends the edit always leaves the paragraph not editable, and
    struck through if the record is done or it was struck through before;
    from then on a click dispatches again. *)
Theorem edit_cycle (p : Paragraph.t) (todo : Todo) (state next : list Todo)
        (w w' : World) (after : option Paragraph.t) :
  updateContent (focusUpdate (Some p) todo) todo state w
  = Some ((next, after), w') →
  (∀ rendered todos w0,
     toggleIsDone (focusUpdate (Some p) todo) rendered todos w0
     = Some (todos, w0))
  ∧ ∃ p',
      after = Some p'
      ∧ Paragraph.contenteditable p' = false
      ∧ Paragraph.lineThrough p' = Todo.isDone todo || Paragraph.lineThrough p
      ∧ ∀ rendered todos w0,
          toggleIsDone after rendered todos w0
          = updateTodo (Todo.id rendered)
              (Partial.mk None None (Some (negb (Todo.isDone rendered)))
                          None None)
              todos w0.
Proof.
  intros Hrun. split.
  { intros rendered todos w0. unfold toggleIsDone, focusUpdate.
    by destruct (Todo.isDone todo). }
  unfold updateContent, focusUpdate in Hrun.
  destruct (trim _) as [|c r] in Hrun.
  - injection Hrun as <- <- <-. eexists. split; [reflexivity|].
    by destruct (Todo.isDone todo).
  - unfold mbind, M_bind in Hrun.
    destruct (updateTodo _ _ _ _) as [[? ?]|] in Hrun; [|done].
    injection Hrun as <- <- <-. eexists. split; [reflexivity|].
    by destruct (Todo.isDone todo).
Qed.

Lemma edit_cycle_witness :
  (∀ rendered todos w0,
     toggleIsDone (focusUpdate (Some (restingParagraph "Eggs" true))
                               Sample.eggsStored) rendered todos w0
     = Some (todos, w0))
  ∧ ∃ p',
      Some (Paragraph.mk false (Some "Eggs") true true) = Some p'
      ∧ Paragraph.contenteditable p' = false
      ∧ Paragraph.lineThrough p'
        = Todo.isDone Sample.eggsStored
          || Paragraph.lineThrough (restingParagraph "Eggs" true)
      ∧ ∀ rendered todos w0,
          toggleIsDone (Some (Paragraph.mk false (Some "Eggs") true true))
                       rendered todos w0
          = updateTodo (Todo.id rendered)
              (Partial.mk None None (Some (negb (Todo.isDone rendered)))
                          None None)
              todos w0.
Proof.
  apply (edit_cycle (restingParagraph "Eggs" true) Sample.eggsStored
           [Sample.milk; Sample.eggsStored]
           [Sample.milkStored;
            Todo.mk "v" "Eggs" true (DateStr "1970-01-01T00:00:00.500Z")
                    (DateObj 1002)]
           Sample.stockedWorld
           (write todosKey
              (JSON.stringify
                 [Sample.milkStored;
                  Todo.mk "v" "Eggs" true (DateStr "1970-01-01T00:00:00.500Z")
                          (DateObj 1002)])
              (tick Sample.stockedWorld))).
  vm_compute. reflexivity.
Defined.

(** X11.  An edit that leaves nothing but white space, or nothing at all,
    is dropped: nothing is dispatched, the list and the world stay as they
    were, and the paragraph shows the content of the record again and is no
    longer editable. *)
Theorem blank_edit_is_dropped (p : Paragraph.t) (todo : Todo)
        (state : list Todo) (w : World) :
  all_space (default "" (Paragraph.textContent p)) = true →
  ∃ p',
    updateContent (Some p) todo state w = Some ((state, Some p'), w)
    ∧ Paragraph.textContent p' = Some (Todo.content todo)
    ∧ Paragraph.contenteditable p' = false.
Proof.
  intros Hblank. unfold updateContent.
  cbn [Paragraph.textContent Paragraph.set_contenteditable].
  rewrite (trim_all_space _ Hblank). eexists. split; [reflexivity|].
  by destruct (Todo.isDone todo).
Qed.

Lemma blank_edit_is_dropped_witness :
  ∃ p',
    updateContent (Some (Paragraph.mk true (Some "   ") false true))
                  Sample.milk [Sample.milk; Sample.eggsStored]
                  Sample.stockedWorld
    = Some (([Sample.milk; Sample.eggsStored], Some p'), Sample.stockedWorld)
    ∧ Paragraph.textContent p' = Some (Todo.content Sample.milk)
    ∧ Paragraph.contenteditable p' = false.
Proof.
  apply (blank_edit_is_dropped (Paragraph.mk true (Some "   ") false true)).
  reflexivity.
Defined.

(** X12.  An edit that leaves some text is committed to the first
    persisted record that has the id of the item: its content becomes the
    text without the white space at its two ends, its flag, id and creation
    date stay, the other records stay, and the list is written and returned;
    the paragraph keeps its text and is no longer editable. *)
Theorem edit_is_committed (p : Paragraph.t) (todo : Todo)
        (state todos : list Todo) (w : World) :
  persisted w = Some todos →
  Todo.id todo ∈ ids todos →
  all_space (default "" (Paragraph.textContent p)) = false →
  ∃ before old after new p' w',
    todos = before ++ old :: after
    ∧ Todo.id old = Todo.id todo
    ∧ (Todo.id todo ∉ ids before)
    ∧ updateContent (Some p) todo state w
      = Some ((before ++ new :: after, Some p'), w')
    ∧ Todo.content new = trim (default "" (Paragraph.textContent p))
    ∧ tidy (Todo.content new)
    ∧ Todo.isDone new = Todo.isDone old
    ∧ Todo.id new = Todo.id old
    ∧ Todo.dateCreated new = Todo.dateCreated old
    ∧ persisted w' = Some (JSON.stored (before ++ new :: after))
    ∧ Paragraph.textContent p' = Paragraph.textContent p
    ∧ Paragraph.contenteditable p' = false.
Proof.
  intros Hstore Hin Htext. pose proof (tidy_trim _ Htext) as Htidy.
  unfold updateContent.
  cbn [Paragraph.textContent Paragraph.set_contenteditable].
  destruct (trim (default "" (Paragraph.textContent p))) as [|c r] eqn:Htrim;
    [by destruct Htidy|].
  destruct (updateTodo_result state todos w (Todo.id todo)
              (Some (String c r)) None Hstore)
    as [[Hnot _] | (before & old & after & Heq & Hid & Hbefore & Hrun)];
    [done|].
  exists before, old, after. unfold mbind, M_bind. rewrite Hrun. cbv zeta.
  eexists _, _, _. split; [done|]. split; [done|]. split; [done|].
  split; [reflexivity|].
  cbn [Todo.content Todo.isDone Todo.id Todo.dateCreated updated_content
       from_option].
  repeat split; try done; try apply Htidy.
  - apply persisted_write.
  - by destruct (Todo.isDone todo).
  - by destruct (Todo.isDone todo).
Qed.

Lemma edit_is_committed_witness :
  ∃ before old after new p' w',
    [Sample.milkStored; Sample.eggsStored] = before ++ old :: after
    ∧ Todo.id old = Todo.id Sample.eggsStored
    ∧ (Todo.id Sample.eggsStored ∉ ids before)
    ∧ updateContent (Some (Paragraph.mk true (Some " Six eggs ") false true))
                    Sample.eggsStored [Sample.milk; Sample.eggsStored]
                    Sample.stockedWorld
      = Some ((before ++ new :: after, Some p'), w')
    ∧ Todo.content new
      = trim (default ""
                (Paragraph.textContent
                   (Paragraph.mk true (Some " Six eggs ") false true)))
    ∧ tidy (Todo.content new)
    ∧ Todo.isDone new = Todo.isDone old
    ∧ Todo.id new = Todo.id old
    ∧ Todo.dateCreated new = Todo.dateCreated old
    ∧ persisted w' = Some (JSON.stored (before ++ new :: after))
    ∧ Paragraph.textContent p'
      = Paragraph.textContent
          (Paragraph.mk true (Some " Six eggs ") false true)
    ∧ Paragraph.contenteditable p' = false.
Proof.
  apply (edit_is_committed (Paragraph.mk true (Some " Six eggs ") false true)
           Sample.eggsStored [Sample.milk; Sample.eggsStored]
           [Sample.milkStored; Sample.eggsStored] Sample.stockedWorld);
    [vm_compute; reflexivity | | reflexivity].
  unfold ids. cbn. apply elem_of_cons. right. apply list_elem_of_here.
Defined.

Lemma toggle_at_rest (p : Paragraph.t) (todo : Todo) (l1 l2 : list Todo)
      (w : World) :
  consistent (l1 ++ todo :: l2) w →
  NoDup (ids (l1 ++ todo :: l2)) →
  Paragraph.contenteditable p = false →
  toggleIsDone (Some p) todo (l1 ++ todo :: l2) w
  = let new :=
      Todo.mk (Todo.id todo) (Todo.content todo) (negb (Todo.isDone todo))
              (DateStr (JsDate.toJSON (Todo.dateCreated todo)))
              (DateObj (clock w (ticks w))) in
    Some (JSON.stored l1 ++ new :: JSON.stored l2,
          write todosKey
                (JSON.stringify (JSON.stored l1 ++ new :: JSON.stored l2))
                (tick w)).
Proof.
  intros Hcons Hnodup Hrest.
  unfold toggleIsDone. rewrite Hrest. unfold updateTodo, dispatch.
  rewrite (reducer_update _ _ _ Hcons _ (JSON.stored l1) (JSON.stored l2)
             (JSON.stored_todo todo)); try done.
  - by rewrite stored_app.
  - cbn. apply not_in_ids. rewrite ids_stored.
    rewrite ids_app in Hnodup. apply NoDup_app in Hnodup as (_ & Hsep & _).
    intros Hl1. apply (Hsep _ Hl1). unfold ids. rewrite fmap_cons. by left.
Qed.

(** X13.  A click on an item at rest flips the flag of its record and of no
    other: with consistent copies and pairwise distinct ids, the list
    returned is the stored form of the in-memory list with, in the place of
    the record clicked, a record of the same id and content whose flag is
    the opposite. *)
Theorem click_flips_flag (p : Paragraph.t) (todo : Todo) (state : list Todo)
        (w : World) :
  consistent state w →
  NoDup (ids state) →
  todo ∈ state →
  Paragraph.contenteditable p = false →
  ∃ before after new w',
    JSON.stored state = before ++ JSON.stored_todo todo :: after
    ∧ toggleIsDone (Some p) todo state w = Some (before ++ new :: after, w')
    ∧ Todo.isDone new = negb (Todo.isDone todo)
    ∧ Todo.content new = Todo.content todo
    ∧ Todo.id new = Todo.id todo
    ∧ consistent (before ++ new :: after) w'.
Proof.
  intros Hcons Hnodup Hin Hrest.
  apply list_elem_of_split in Hin as (l1 & l2 & ->).
  exists (JSON.stored l1), (JSON.stored l2).
  rewrite (toggle_at_rest p todo l1 l2 w Hcons Hnodup Hrest). cbv zeta.
  eexists _, _. split; [by rewrite stored_app|]. split; [reflexivity|].
  repeat split. apply consistent_write.
Qed.

Lemma click_flips_flag_witness :
  ∃ before after new w',
    JSON.stored [Sample.milk; Sample.eggsStored]
    = before ++ JSON.stored_todo Sample.eggsStored :: after
    ∧ toggleIsDone (Some (restingParagraph "Eggs" true)) Sample.eggsStored
                   [Sample.milk; Sample.eggsStored] Sample.stockedWorld
      = Some (before ++ new :: after, w')
    ∧ Todo.isDone new = negb (Todo.isDone Sample.eggsStored)
    ∧ Todo.content new = Todo.content Sample.eggsStored
    ∧ Todo.id new = Todo.id Sample.eggsStored
    ∧ consistent (before ++ new :: after) w'.
Proof.
  apply click_flips_flag;
    [vm_compute; reflexivity | | | reflexivity].
  - apply (bool_decide_unpack _). vm_compute. reflexivity.
  - apply elem_of_cons. right. apply list_elem_of_here.
Defined.

(** X14.  The delete button does nothing when the question is answered no;
    answered yes, it removes from the persisted list every record that has
    the id of the item and keeps the others, and that list is returned and
    stored. *)
Theorem confirm_delete (todo : Todo) (state todos : list Todo) (w : World) :
  persisted w = Some todos →
  confirmDelete false todo state w = Some (state, w)
  ∧ ∃ next w',
      confirmDelete true todo state w = Some (next, w')
      ∧ (Todo.id todo ∉ ids next)
      ∧ (∀ other, other ∈ todos → Todo.id other ≠ Todo.id todo → other ∈ next)
      ∧ (∀ other, other ∈ next → other ∈ todos)
      ∧ persisted w' = Some next.
Proof.
  intros Hstore. split; [done|].
  unfold confirmDelete, deleteTodo, dispatch.
  rewrite (reducer_delete _ _ _ Hstore) by done. cbv zeta.
  eexists _, _. split; [reflexivity|].
  cbn [Action.payload Action.data from_option Partial.id].
  split; [apply filter_id_gone|]. split; [intros other; apply filter_id_kept|].
  split; [by intros other [_ Hin]%list_elem_of_filter|].
  rewrite persisted_write. f_equal.
  apply stored_filter, (persisted_stored _ _ Hstore).
Qed.

Lemma confirm_delete_witness :
  confirmDelete false Sample.milk [Sample.milk; Sample.eggsStored]
                Sample.stockedWorld
  = Some ([Sample.milk; Sample.eggsStored], Sample.stockedWorld)
  ∧ ∃ next w',
      confirmDelete true Sample.milk [Sample.milk; Sample.eggsStored]
                    Sample.stockedWorld = Some (next, w')
      ∧ (Todo.id Sample.milk ∉ ids next)
      ∧ (∀ other, other ∈ [Sample.milkStored; Sample.eggsStored] →
                  Todo.id other ≠ Todo.id Sample.milk → other ∈ next)
      ∧ (∀ other, other ∈ next →
                  other ∈ [Sample.milkStored; Sample.eggsStored])
      ∧ persisted w' = Some next.
Proof.
  apply confirm_delete. vm_compute. reflexivity.
Defined.

(** ** What storage keeps *)

(** X15.  Reading undoes writing on every list that was read: a list that
    [JSON.parse] gave, written by [JSON.stringify] and parsed again, is the
    same list, record for record and field for field. *)
Theorem read_list_survives (text : string) (todos : list Todo) :
  JSON.parse text = Some todos →
  JSON.parse (JSON.stringify todos) = Some todos.
Proof.
  intros Hread. rewrite parse_stringify. f_equal. by eapply parse_stored.
Qed.

Lemma read_list_survives_witness :
  JSON.parse (JSON.stringify [Sample.milkStored; Sample.eggsStored])
  = Some [Sample.milkStored; Sample.eggsStored].
Proof.
  apply (read_list_survives
           (JSON.stringify [Sample.milk; Sample.eggsStored])).
  vm_compute. reflexivity.
Defined.

(** X16.  A record keeps its instants through storage: after a CREATE
    whose two clock readings are time values a [Date] can hold, the store
    reads back as the stored form of the in-memory list followed by a record
    with the new id, content and flag, whose two dates are strings that
    denote exactly the two readings. *)
Theorem created_instants_survive (state todos : list Todo) (w : World)
        (data : Partial.t) (content : string) :
  persisted w = Some todos →
  Partial.content data = Some content →
  content ≠ "" →
  - DateTime.maxTime ≤ clock w (ticks w) ≤ DateTime.maxTime →
  - DateTime.maxTime ≤ clock w (S (ticks w)) ≤ DateTime.maxTime →
  ∃ newTodo w' reloaded,
    todoReducer state (Action.mk (Some data) TodoAction.CREATE) w
    = Some (state ++ [newTodo], w')
    ∧ persisted w' = Some (JSON.stored state ++ [reloaded])
    ∧ Todo.id reloaded = Todo.id newTodo
    ∧ Todo.content reloaded = content
    ∧ Todo.isDone reloaded = false
    ∧ JsDate.time (Todo.dateCreated newTodo) = Some (clock w (ticks w))
    ∧ JsDate.time (Todo.dateCreated reloaded) = Some (clock w (ticks w))
    ∧ JsDate.time (Todo.lastModified newTodo) = Some (clock w (S (ticks w)))
    ∧ JsDate.time (Todo.lastModified reloaded) = Some (clock w (S (ticks w))).
Proof.
  intros Hstore Hcontent Hne Hcreated Hmodified.
  rewrite (reducer_create _ _ _ Hstore _ _ Hcontent Hne). cbv zeta.
  eexists _, _, _. split; [reflexivity|].
  rewrite persisted_write, stored_app.
  cbn [JSON.stored fmap list_fmap JSON.stored_todo Todo.id Todo.content
       Todo.isDone Todo.dateCreated Todo.lastModified JsDate.toJSON].
  split; [reflexivity|].
  cbn [Todo.id Todo.content Todo.isDone Todo.dateCreated Todo.lastModified
       JsDate.time].
  repeat split; by apply parse_toISOString.
Qed.

Lemma created_instants_survive_witness :
  ∃ newTodo w' reloaded,
    todoReducer [Sample.milk; Sample.eggsStored]
                (Action.mk (Some (Partial.mk None (Some "Bread") None None None))
                           TodoAction.CREATE) Sample.stockedWorld
    = Some ([Sample.milk; Sample.eggsStored] ++ [newTodo], w')
    ∧ persisted w'
      = Some (JSON.stored [Sample.milk; Sample.eggsStored] ++ [reloaded])
    ∧ Todo.id reloaded = Todo.id newTodo
    ∧ Todo.content reloaded = "Bread"
    ∧ Todo.isDone reloaded = false
    ∧ JsDate.time (Todo.dateCreated newTodo)
      = Some (clock Sample.stockedWorld (ticks Sample.stockedWorld))
    ∧ JsDate.time (Todo.dateCreated reloaded)
      = Some (clock Sample.stockedWorld (ticks Sample.stockedWorld))
    ∧ JsDate.time (Todo.lastModified newTodo)
      = Some (clock Sample.stockedWorld (S (ticks Sample.stockedWorld)))
    ∧ JsDate.time (Todo.lastModified reloaded)
      = Some (clock Sample.stockedWorld (S (ticks Sample.stockedWorld))).
Proof.
  apply (created_instants_survive _ [Sample.milkStored; Sample.eggsStored]);
    [vm_compute; reflexivity | reflexivity | discriminate
    | by vm_compute | by vm_compute].
Defined.

(** ** More on dispatches one after the other *)

Lemma updated_content_idem (content : option string) (old : string) :
  updated_content content (updated_content content old)
  = updated_content content old.
Proof. by destruct content as [[|c r]|]. Qed.

Lemma stored_cons (todo : Todo) (l : list Todo) :
  JSON.stored (todo :: l) = JSON.stored_todo todo :: JSON.stored l.
Proof. reflexivity. Qed.

(** X17.  Dispatching the same UPDATE of a stored id a second time only
    refreshes [lastModified]: the two dispatches give the list, and leave
    the world, that a single dispatch made one clock reading later gives. *)
Theorem update_twice (state todos : list Todo) (w : World) (action : Action)
        (id : string) :
  persisted w = Some todos →
  Action.type action = TodoAction.UPDATE →
  Partial.id (Action.payload action) = Some id →
  id ∈ ids todos →
  (once ← dispatch action state; dispatch action once) w
  = dispatch action state (tick w)
  ∧ is_Some (dispatch action state (tick w)).
Proof.
  intros Hstore Htype Hid Hin.
  destruct (first_with_id id _ Hin)
    as (before & todo & after & Heq & Htodo & Hbefore).
  assert (Some (Todo.id todo) = Partial.id (Action.payload action)) as H1
    by (by rewrite Hid, Htodo).
  assert (∀ other, other ∈ before →
            Some (Todo.id other) ≠ Partial.id (Action.payload action)) as H2
    by (rewrite Hid; by apply not_in_ids).
  pose proof (persisted_stored _ _ Hstore) as Hfix. rewrite Heq in Hfix.
  pose proof (proj1 (stored_fixed _) Hfix) as Hall.
  assert (JSON.stored before = before) as Hb.
  { apply stored_fixed. intros t Ht. apply Hall, elem_of_app. by left. }
  assert (JSON.stored after = after) as Ha.
  { apply stored_fixed. intros t Ht. apply Hall, elem_of_app. right. by right. }
  assert (JSON.stored_todo todo = todo) as Ht.
  { apply Hall, elem_of_app. right. by left. }
  unfold dispatch, mbind, M_bind.
  rewrite (reducer_update _ _ _ Hstore _ before after todo Htype Heq H1 H2).
  rewrite (reducer_update state todos (tick w) Hstore _ before after todo
             Htype Heq H1 H2).
  cbv beta iota zeta. split; [|by eexists].
  set (u1 := Todo.mk (Todo.id todo)
                (updated_content (Partial.content (Action.payload action))
                                 (Todo.content todo))
                (default (Todo.isDone todo)
                         (Partial.isDone (Action.payload action)))
                (Todo.dateCreated todo) (DateObj (clock w (ticks w)))).
  rewrite (reducer_update _ _ _ (persisted_write _ _) _ before after
             (JSON.stored_todo u1) Htype);
    [|by rewrite stored_app, stored_cons, Hb, Ha|exact H1|exact H2].
  cbv zeta. subst u1.
  cbn [JSON.stored_todo Todo.id Todo.content Todo.isDone Todo.dateCreated
       Todo.lastModified tick write ticks clock localStorage uuids drawn].
  rewrite updated_content_idem.
  assert (DateStr (JsDate.toJSON (Todo.dateCreated todo))
          = Todo.dateCreated todo) as ->.
  { rewrite <- Ht at 2. reflexivity. }
  assert (default (default (Todo.isDone todo)
                           (Partial.isDone (Action.payload action)))
                  (Partial.isDone (Action.payload action))
          = default (Todo.isDone todo) (Partial.isDone (Action.payload action)))
    as -> by (by destruct (Partial.isDone (Action.payload action))).
  unfold write, tick. cbn [localStorage clock ticks uuids drawn].
  by rewrite insert_insert_eq.
Qed.

Lemma update_twice_witness :
  (once ← dispatch (Sample.toggle "v" false) [Sample.milk; Sample.eggsStored];
   dispatch (Sample.toggle "v" false) once) Sample.stockedWorld
  = dispatch (Sample.toggle "v" false) [Sample.milk; Sample.eggsStored]
             (tick Sample.stockedWorld)
  ∧ is_Some (dispatch (Sample.toggle "v" false)
                      [Sample.milk; Sample.eggsStored]
                      (tick Sample.stockedWorld)).
Proof.
  apply (update_twice _ [Sample.milkStored; Sample.eggsStored] _ _ "v");
    [vm_compute; reflexivity | reflexivity | reflexivity |].
  unfold ids. cbn. apply elem_of_cons. right. apply list_elem_of_here.
Defined.

(** X18.  Two clicks on an item at rest, the second on the item as it is
    shown after the first, bring the flag of its record back to what it was
    and leave its content and every id as they were. *)
Theorem two_clicks_restore_flag (p : Paragraph.t) (todo : Todo)
        (state : list Todo) (w : World) :
  consistent state w →
  NoDup (ids state) →
  todo ∈ state →
  Paragraph.contenteditable p = false →
  ∃ once shown w1 twice final w2,
    toggleIsDone (Some p) todo state w = Some (once, w1)
    ∧ shown ∈ once
    ∧ Todo.id shown = Todo.id todo
    ∧ Todo.isDone shown = negb (Todo.isDone todo)
    ∧ toggleIsDone (Some p) shown once w1 = Some (twice, w2)
    ∧ final ∈ twice
    ∧ Todo.id final = Todo.id todo
    ∧ Todo.isDone final = Todo.isDone todo
    ∧ Todo.content final = Todo.content todo
    ∧ ids twice = ids state
    ∧ consistent twice w2.
Proof.
  intros Hcons Hnodup Hin Hrest.
  apply list_elem_of_split in Hin as (l1 & l2 & ->).
  pose (shown := Todo.mk (Todo.id todo) (Todo.content todo)
                         (negb (Todo.isDone todo))
                         (DateStr (JsDate.toJSON (Todo.dateCreated todo)))
                         (DateObj (clock w (ticks w)))).
  set (w1 := write todosKey
               (JSON.stringify (JSON.stored l1 ++ shown :: JSON.stored l2))
               (tick w)).
  assert (ids (JSON.stored l1 ++ shown :: JSON.stored l2)
          = ids (l1 ++ todo :: l2)) as Hids1.
  { unfold ids. rewrite !fmap_app, !fmap_cons.
    fold (ids (JSON.stored l1)) (ids (JSON.stored l2)).
    by rewrite !ids_stored. }
  assert (consistent (JSON.stored l1 ++ shown :: JSON.stored l2) w1) as Hcons1
    by apply consistent_write.
  pose (final := Todo.mk (Todo.id shown) (Todo.content shown)
                         (negb (Todo.isDone shown))
                         (DateStr (JsDate.toJSON (Todo.dateCreated shown)))
                         (DateObj (clock w1 (ticks w1)))).
  exists (JSON.stored l1 ++ shown :: JSON.stored l2), shown, w1,
         (JSON.stored (JSON.stored l1) ++ final
            :: JSON.stored (JSON.stored l2)), final.
  eexists.
  split; [apply (toggle_at_rest p todo l1 l2 w Hcons Hnodup Hrest)|].
  split; [apply elem_of_app; right; by left|].
  split; [done|]. split; [done|].
  split.
  { apply (toggle_at_rest p shown (JSON.stored l1) (JSON.stored l2) w1 Hcons1);
      [by rewrite Hids1 | done]. }
  split; [apply elem_of_app; right; by left|].
  split; [done|]. split; [apply negb_involutive|]. split; [done|].
  split; [|apply consistent_write].
  rewrite !stored_idem, <- Hids1. unfold ids. by rewrite !fmap_app, !fmap_cons.
Qed.

Lemma two_clicks_restore_flag_witness :
  ∃ once shown w1 twice final w2,
    toggleIsDone (Some (restingParagraph "Eggs" true)) Sample.eggsStored
                 [Sample.milk; Sample.eggsStored] Sample.stockedWorld
    = Some (once, w1)
    ∧ shown ∈ once
    ∧ Todo.id shown = Todo.id Sample.eggsStored
    ∧ Todo.isDone shown = negb (Todo.isDone Sample.eggsStored)
    ∧ toggleIsDone (Some (restingParagraph "Eggs" true)) shown once w1
      = Some (twice, w2)
    ∧ final ∈ twice
    ∧ Todo.id final = Todo.id Sample.eggsStored
    ∧ Todo.isDone final = Todo.isDone Sample.eggsStored
    ∧ Todo.content final = Todo.content Sample.eggsStored
    ∧ ids twice = ids [Sample.milk; Sample.eggsStored]
    ∧ consistent twice w2.
Proof.
  apply two_clicks_restore_flag;
    [vm_compute; reflexivity | | | reflexivity].
  - apply (bool_decide_unpack _). vm_compute. reflexivity.
  - apply elem_of_cons. right. apply list_elem_of_here.
Defined.

(** ** A browser without the key *)

(** X19.  When storage has no entry for the application, the page starts
    with the empty list; a DELETE then returns the empty list, whatever the
    in-memory list was, and creates the entry with the text of the empty
    array; an UPDATE returns the in-memory list and creates nothing. *)
Theorem missing_key (state : list Todo) (w : World) :
  localStorage w !! todosKey = None →
  initialState w = Some ([], w)
  ∧ (∀ data, ∃ w',
        dispatch (Action.mk data TodoAction.DELETE) state w = Some ([], w')
        ∧ localStorage w' !! todosKey = Some "[]")
  ∧ (∀ data,
        dispatch (Action.mk data TodoAction.UPDATE) state w = Some (state, w)).
Proof.
  intros Hkey.
  assert (persisted w = Some []) as Hstore by (unfold persisted; by rewrite Hkey).
  split; [|split].
  - unfold initialState. by rewrite readTodos_persisted, Hstore.
  - intros data. unfold dispatch.
    rewrite (reducer_delete _ _ _ Hstore) by done. cbv zeta.
    eexists. split; [reflexivity|]. cbn. by rewrite lookup_insert_eq.
  - intros data. unfold dispatch.
    apply (reducer_update_absent _ _ _ Hstore); [done|].
    by intros ? ?%elem_of_nil.
Qed.

Lemma missing_key_witness :
  initialState Sample.freshWorld = Some ([], Sample.freshWorld)
  ∧ (∀ data, ∃ w',
        dispatch (Action.mk data TodoAction.DELETE) [Sample.milk]
                 Sample.freshWorld = Some ([], w')
        ∧ localStorage w' !! todosKey = Some "[]")
  ∧ (∀ data,
        dispatch (Action.mk data TodoAction.UPDATE) [Sample.milk]
                 Sample.freshWorld
        = Some ([Sample.milk], Sample.freshWorld)).
Proof. apply missing_key. reflexivity. Defined.
